(** * Assistant relay (server.js): a shallow embedding and its properties

    The relay is one Express module: an upstream client [openAI], five thin
    conversation operations, the run poller [waitForRunComplete], the pure
    reply extractor [extractLatestAssistantText] and two route handlers.

    JavaScript values are embedded as the inductive [value]; asynchronous
    code is embedded in a small trace-and-exception monad [M]: the trace
    records every [fetch] and every [sleep] in program order, the upstream
    service is a function of the trace so far, and a rejected promise or a
    thrown exception is the left injection. *)

From Stdlib Require Import String Ascii List ZArith Bool Lia DecimalString.
From Stdlib Require Import SpecFloat.
Import ListNotations.
Local Open Scope string_scope.
Local Open Scope list_scope.
Local Set Warnings "-register-all".

(** String concatenation, as in a template literal. *)
Infix "+++" := String.append (right associativity, at level 60).

(** ** JavaScript values *)

(** A JavaScript number is an IEEE-754 double; [spec_float] is the Standard
    Library's inductive description of one. *)
Definition number := spec_float.

(** Values as the program meets them: what [JSON.parse] builds plus
    [undefined].  An object is its list of own properties in insertion
    order; a property read takes the first binding of the key. *)
Inductive value : Type :=
| JUndefined
| JNull
| JBool (b : bool)
| JNum (n : number)
| JStr (s : string)
| JArr (elems : list value)
| JObj (fields : list (string * value)).

(** What a [catch (e)] clause of this program can observe of a thrown
    value: [e.message], [e.status] and [e.data].  [new Error(msg)] has
    neither status nor data until [openAI] assigns them. *)
Record exn : Type := mkExn {
  e_message : string;
  e_status : option Z;
  e_data : value
}.

Definition Error (msg : string) : exn :=
  {| e_message := msg; e_status := None; e_data := JUndefined |}.

(** ToBoolean. *)
Definition truthy (v : value) : bool :=
  match v with
  | JUndefined | JNull => false
  | JBool b => b
  | JNum (S754_zero _) | JNum S754_nan => false
  | JNum _ => true
  | JStr s => negb (s =? "")
  | JArr _ | JObj _ => true
  end.

Definition nullish (v : value) : bool :=
  match v with JUndefined | JNull => true | _ => false end.

(** [typeof v === "string"]. *)
Definition is_string (v : value) : bool :=
  match v with JStr _ => true | _ => false end.

(** [v === "lit"] for a string literal. *)
Definition strict_eq_str (v : value) (lit : string) : bool :=
  match v with JStr s => s =? lit | _ => false end.

(** [a || b] and [a ?? b]. *)
Definition js_or (a b : value) : value := if truthy a then a else b.
Definition js_coalesce (a b : value) : value := if nullish a then b else a.

Fixpoint assoc (k : string) (fields : list (string * value)) : value :=
  match fields with
  | [] => JUndefined
  | (k', v) :: rest => if k' =? k then v else assoc k rest
  end.

(** [fields] has an own property named [k]. *)
Fixpoint has_key (k : string) (fields : list (string * value)) : bool :=
  match fields with
  | [] => false
  | (k', _) :: rest => (k' =? k) || has_key k rest
  end.

(** The value of [v.k] when [v] is neither [null] nor [undefined].  The
    program reads only the names data, error, message, status, last_error,
    id, role, content, type, text, value, threadId; none of them is an
    array index, [length] or a member of a built-in prototype, so a read on
    an array or a primitive yields [undefined]. *)
Definition prop (v : value) (k : string) : value :=
  match v with
  | JObj fields => assoc k fields
  | _ => JUndefined
  end.

(** V8's TypeError for a property read on [null] or [undefined]. *)
Definition TypeError_read (v : value) (k : string) : exn :=
  Error ("Cannot read properties of "
         +++ (match v with JNull => "null" | _ => "undefined" end)
         +++ " (reading '" +++ k +++ "')").

(** [v.k]: throws on [null] and [undefined]. *)
Definition get (v : value) (k : string) : exn + value :=
  if nullish v then inl (TypeError_read v k) else inr (prop v k).

(** [v?.k]. *)
Definition opt_get (v : value) (k : string) : value :=
  if nullish v then JUndefined else prop v k.

(** [Array.isArray(v) ? v : []]. *)
Definition array_or_empty (v : value) : list value :=
  match v with JArr l => l | _ => [] end.

(** [arr.find(p)] for a callback that may throw: the first element on which
    the callback is truthy, [undefined] when there is none; an exception in
    the callback ends the search. *)
Fixpoint find_value (p : value -> exn + bool) (l : list value) : exn + value :=
  match l with
  | [] => inr JUndefined
  | x :: rest =>
      match p x with
      | inl e => inl e
      | inr true => inr x
      | inr false => find_value p rest
      end
  end.

(** Decimal text of an integer, as a template literal prints it. *)
Definition dec (z : Z) : string := NilZero.string_of_int (Z.to_int z).

(** ** Reply extraction (server.js, lines 97-105) *)

(** [(m) => m.role === "assistant"] *)
Definition is_assistant (m : value) : exn + bool :=
  match get m "role" with
  | inl e => inl e
  | inr r => inr (strict_eq_str r "assistant")
  end.

(** [(b) => b.type === "text" && b.text?.value] *)
Definition is_text_block (b : value) : exn + bool :=
  match get b "type" with
  | inl e => inl e
  | inr t =>
      inr (if strict_eq_str t "text"
           then truthy (opt_get (prop b "text") "value")
           else false)
  end.

Definition extractLatestAssistantText (messagesList : value) : exn + value :=
  let data := array_or_empty (opt_get messagesList "data") in
  match find_value is_assistant data with
  | inl e => inl e
  | inr assistantMsg =>
      if negb (truthy assistantMsg) then inr JNull
      else
        let blocks := array_or_empty (prop assistantMsg "content") in
        match find_value is_text_block blocks with
        | inl e => inl e
        | inr textBlock =>
            inr (js_coalesce (opt_get (opt_get textBlock "text") "value") JNull)
        end
  end.


(** ** Requests, traces and the monad of asynchronous code *)

(** The argument of one [fetch] call. *)
Record request : Type := mkRequest {
  rq_url : string;
  rq_method : string;
  rq_headers : list (string * string);
  rq_body : option string
}.

(** What [await fetch(..)] followed by [await res.text()] gives: either
    promise rejects (a network failure: a plain error with a message and no
    [status] or [data] property), or there is a response with [res.status]
    and its text. *)
Inductive outcome : Type :=
| Rejected (reason : string)
| Resolved (status : Z) (text : string).

(** The observable actions of a handler, in program order. *)
Inductive event : Type :=
| EvFetch (rq : request)
| EvSleep (ms : Z).

Definition trace := list event.

(** The requests of a trace. *)
Fixpoint fetches (t : trace) : list request :=
  match t with
  | [] => []
  | EvFetch rq :: rest => rq :: fetches rest
  | EvSleep _ :: rest => fetches rest
  end.

(** An asynchronous computation: from the trace so far to the extended trace
    and either a thrown value or a result. *)
Definition M (A : Type) : Type := trace -> trace * (exn + A).

Definition ret {A} (a : A) : M A := fun t => (t, inr a).
Definition throw {A} (e : exn) : M A := fun t => (t, inl e).
Definition bind {A B} (c : M A) (k : A -> M B) : M B :=
  fun t =>
    match c t with
    | (t', inl e) => (t', inl e)
    | (t', inr a) => k a t'
    end.
(** A synchronous expression that may throw, inside asynchronous code. *)
Definition lift {A} (r : exn + A) : M A := fun t => (t, r).

Declare Scope relay_scope.
Delimit Scope relay_scope with relay.
Notation "x <- c ;; k" := (bind c (fun x => k))
  (at level 100, c at next level, right associativity) : relay_scope.
Notation "c ;;; k" := (bind c (fun _ => k))
  (at level 100, right associativity) : relay_scope.
Local Open Scope relay_scope.

(** [res.ok]: the status is in the range 200-299. *)
Definition res_ok (status : Z) : bool :=
  ((200 <=? status) && (status <=? 299))%Z.

(** What a route handler sends back: [res.status(..).json(..)]; the body is
    the object handed to [res.json], before serialisation. *)
Record http_response : Type := mkResponse {
  res_status : Z;
  res_body : value
}.

(** [e.status || fallback] *)
Definition status_or (e : exn) (fallback : Z) : Z :=
  match e_status e with
  | Some s => if (s =? 0)%Z then fallback else s
  | None => fallback
  end.

(** What the module takes from its environment: the process configuration
    read once at startup (lines 6-16), the built-ins of the runtime it calls,
    and the upstream service behind [fetch]. *)
Class Runtime : Type := {
  OPENAI_API_KEY : string;
  ASSISTANT_ID : string;
  (** [JSON.parse]; [None] when it throws. *)
  JSON_parse : string -> option value;
  JSON_stringify : value -> string;
  (** Number::toString. *)
  Number_toString : number -> string;
  (** The upstream service: its answer to a request may depend on
      everything the relay did before. *)
  fetch : trace -> request -> outcome
}.

Section Relay.

Context {rt : Runtime}.

(** Whether ToString has a result for [v].  An object is converted by the
    [toString] it finds: the inherited one unless the object has an own
    property of that name, which (parsed from JSON) is never callable; the
    conversion then turns to [valueOf], which gives no primitive, and
    throws.  An array is joined, which converts each element that is not
    [null] or [undefined]. *)
Fixpoint stringifies (v : value) : bool :=
  match v with
  | JArr elems =>
      (fix all (l : list value) : bool :=
         match l with
         | [] => true
         | x :: rest => (nullish x || stringifies x) && all rest
         end) elems
  | JObj fields => negb (has_key "toString" fields)
  | _ => true
  end.

(** The string ToString gives when it has a result. *)
Fixpoint string_of (v : value) : string :=
  match v with
  | JUndefined => "undefined"
  | JNull => "null"
  | JBool true => "true"
  | JBool false => "false"
  | JNum n => Number_toString n
  | JStr s => s
  | JArr elems =>
      (fix join (l : list value) : string :=
         match l with
         | [] => ""
         | x :: rest =>
             (if nullish x then "" else string_of x)
             +++ (match rest with [] => "" | _ => "," +++ join rest end)
         end) elems
  | JObj _ => "[object Object]"
  end.

(** V8's TypeError for a value that has no primitive form. *)
Definition TypeError_convert : exn :=
  Error "Cannot convert object to primitive value".

(** ToString, as applied by template literals and by [new Error(msg)]. *)
Definition ToString (v : value) : exn + string :=
  if stringifies v then inr (string_of v) else inl TypeError_convert.

Definition OPENAI_BASE : string := "https://api.openai.com/v1".

(** lines 20-27 *)
Definition openAIHeaders (beta json : bool) : list (string * string) :=
  [("Authorization", "Bearer " +++ OPENAI_API_KEY)]
  ++ (if json then [("Content-Type", "application/json")] else [])
  ++ (if beta then [("OpenAI-Beta", "assistants=v2")] else []).

(** The request that [openAI path {method, body, beta}] sends. *)
Definition openAI_request (path method : string) (body : option value)
    (beta : bool) : request :=
  {| rq_url := OPENAI_BASE +++ path;
     rq_method := method;
     rq_headers := openAIHeaders beta (match body with Some _ => true | None => false end);
     rq_body := option_map JSON_stringify body |}.

(** [text ? JSON.parse(text) : {}] with [{ raw: text }] on a parse error. *)
Definition parse_payload (text : string) : value :=
  if text =? "" then JObj []
  else match JSON_parse text with
       | Some d => d
       | None => JObj [("raw", JStr text)]
       end.

(** lines 29-48 *)
Definition openAI (path method : string) (body : option value) (beta : bool)
    : M value :=
  fun t =>
    let rq := openAI_request path method body beta in
    let t' := t ++ [EvFetch rq] in
    match fetch t rq with
    | Rejected reason => (t', inl (Error reason))
    | Resolved status text =>
        let data := parse_payload text in
        if negb (res_ok status) then
          let msg := js_or (opt_get (opt_get data "error") "message")
                           (JStr ("OpenAI request failed (" +++ dec status +++ ")")) in
          match ToString msg with
          | inl type_error => (t', inl type_error)
          | inr message =>
              (t', inl {| e_message := message;
                          e_status := Some status;
                          e_data := data |})
          end
        else (t', inr data)
    end.

(** lines 50-52 *)
Definition createThread : M value :=
  openAI "/threads" "POST" (Some (JObj [])) true.

(** lines 54-63 *)
Definition addUserMessage (threadId text : value) : M value :=
  thread <- lift (ToString threadId) ;;
  openAI ("/threads/" +++ thread +++ "/messages") "POST"
    (Some (JObj [("role", JStr "user");
                 ("content", JArr [JObj [("type", JStr "text"); ("text", text)]])]))
    true.

(** lines 65-71 *)
Definition createRun (threadId : value) : M value :=
  thread <- lift (ToString threadId) ;;
  openAI ("/threads/" +++ thread +++ "/runs") "POST"
    (Some (JObj [("assistant_id", JStr ASSISTANT_ID)])) true.

(** lines 73-75 *)
Definition getRun (threadId runId : value) : M value :=
  thread <- lift (ToString threadId) ;;
  run <- lift (ToString runId) ;;
  openAI ("/threads/" +++ thread +++ "/runs/" +++ run) "GET" None true.

(** lines 77-79 *)
Definition sleep (ms : Z) : M unit :=
  fun t => (t ++ [EvSleep ms], inr tt).

(** [["failed", "cancelled", "expired"].includes(status)] *)
Definition is_failure_status (status : value) : bool :=
  strict_eq_str status "failed" || strict_eq_str status "cancelled"
  || strict_eq_str status "expired".

(** line 86: [throw new Error(run.last_error?.message || `Run ${status}`)];
    the template literal is evaluated only when the message is falsy, and
    [new Error] converts its argument to a string. *)
Definition throw_run_failure (run status : value) : M value :=
  msg <- (if truthy (opt_get (prop run "last_error") "message")
          then ret (opt_get (prop run "last_error") "message")
          else named <- lift (ToString status) ;;
               ret (JStr ("Run " +++ named))) ;;
  message <- lift (ToString msg) ;;
  throw (Error message).

(** The loop of lines 82-90 with [attempts] iterations left. *)
Fixpoint poll (attempts : nat) (threadId runId : value) : M value :=
  match attempts with
  | O => throw (Error "Timed out waiting for assistant response")
  | S attempts' =>
      run <- getRun threadId runId ;;
      status <- lift (get run "status") ;;
      if strict_eq_str status "completed" then ret run
      else if is_failure_status status then throw_run_failure run status
      else
        sleep 400 ;;;
        poll attempts' threadId runId
  end.

(** lines 81-91 *)
Definition waitForRunComplete (threadId runId : value) : M value :=
  poll 40 threadId runId.

(** lines 93-95 *)
Definition listMessages (threadId : value) (limit : Z) : M value :=
  thread <- lift (ToString threadId) ;;
  openAI ("/threads/" +++ thread +++ "/messages?limit=" +++ dec limit)
    "GET" None true.

(** ** Route handlers *)

Definition json_response (status : Z) (body : value) : http_response :=
  {| res_status := status; res_body := body |}.

(** [{ error: e.message, details: e.data }] *)
Definition error_body (e : exn) : value :=
  JObj [("error", JStr (e_message e)); ("details", e_data e)].

(** A handler always answers: the trace it leaves and its response. *)
Definition handler := trace -> trace * http_response.

(** lines 111-112: the body of the [try] block. *)
Definition start_try : M http_response :=
  thread <- createThread ;;
  id <- lift (get thread "id") ;;
  ret (json_response 200 (JObj [("threadId", id)])).

(** lines 109-116 *)
Definition chat_start : handler :=
  fun t =>
    match start_try t with
    | (t', inr r) => (t', r)
    | (t', inl e) => (t', json_response 500 (error_body e))
    end.

(** line 126: the initialiser of [tid]. *)
Definition thread_for (threadId : value) : M value :=
  if truthy threadId && is_string threadId then ret threadId
  else thread <- createThread ;; lift (get thread "id").

(** lines 126-135: the body of the [try] block. *)
Definition send_try (threadId message : value) : M http_response :=
  tid <- thread_for threadId ;;
  addUserMessage tid message ;;;
  run <- createRun tid ;;
  runId <- lift (get run "id") ;;
  waitForRunComplete tid runId ;;;
  msgs <- listMessages tid 20 ;;
  reply <- lift (extractLatestAssistantText msgs) ;;
  ret (json_response 200
         (JObj [("threadId", tid); ("reply", js_or reply (JStr ""))])).

(** line 119: a field destructured from [req.body || {}].  The operand
    is truthy, so the read cannot throw. *)
Definition request_field (req_body : value) (k : string) : value :=
  prop (js_or req_body (JObj [])) k.

(** lines 118-139; [req_body] is [req.body]. *)
Definition chat_send (req_body : value) : handler :=
  fun t =>
    let threadId := request_field req_body "threadId" in
    let message := request_field req_body "message" in
    if negb (truthy message) || negb (is_string message) then
      (t, json_response 400
            (JObj [("error", JStr "Missing or invalid 'message' string")]))
    else
      match send_try threadId message t with
      | (t', inr r) => (t', r)
      | (t', inl e) => (t', json_response (status_or e 500) (error_body e))
      end.

(** The requests of the five conversation operations, for ids that have a
    string form. *)
Definition createThread_request : request :=
  openAI_request "/threads" "POST" (Some (JObj [])) true.
Definition addUserMessage_request (threadId text : value) : request :=
  openAI_request ("/threads/" +++ string_of threadId +++ "/messages") "POST"
    (Some (JObj [("role", JStr "user");
                 ("content", JArr [JObj [("type", JStr "text"); ("text", text)]])]))
    true.
Definition createRun_request (threadId : value) : request :=
  openAI_request ("/threads/" +++ string_of threadId +++ "/runs") "POST"
    (Some (JObj [("assistant_id", JStr ASSISTANT_ID)])) true.
Definition getRun_request (threadId runId : value) : request :=
  openAI_request ("/threads/" +++ string_of threadId +++ "/runs/" +++ string_of runId)
    "GET" None true.
Definition listMessages_request (threadId : value) (limit : Z) : request :=
  openAI_request ("/threads/" +++ string_of threadId +++ "/messages?limit=" +++ dec limit)
    "GET" None true.

End Relay.

(** ** A scripted upstream, for concrete runs *)

(** A plain JSON printer (no escapes are needed for the texts used here). *)
Definition quote (s : string) : string :=
  String (ascii_of_nat 34) (s +++ String (ascii_of_nat 34) "").

Fixpoint render (v : value) : string :=
  match v with
  | JUndefined | JNull => "null"
  | JBool true => "true"
  | JBool false => "false"
  | JNum _ => "0"
  | JStr s => quote s
  | JArr elems =>
      "[" +++ (fix items (l : list value) : string :=
                 match l with
                 | [] => ""
                 | x :: rest =>
                     render x +++ (match rest with [] => "" | _ => "," +++ items rest end)
                 end) elems +++ "]"
  | JObj fields =>
      "{" +++ (fix members (l : list (string * value)) : string :=
                 match l with
                 | [] => ""
                 | (k, x) :: rest =>
                     quote k +++ ":" +++ render x
                     +++ (match rest with [] => "" | _ => "," +++ members rest end)
                 end) fields +++ "}"
  end.

(** Parsing by table: the text of one of the known payloads parses to it,
    any other text is a syntax error. *)
Fixpoint parse_known (payloads : list value) (text : string) : option value :=
  match payloads with
  | [] => None
  | v :: rest => if render v =? text then Some v else parse_known rest text
  end.

(** The upstream answers its k-th request with the k-th scripted outcome. *)
Definition scripted (script : list outcome) (t : trace) (_ : request) : outcome :=
  nth (length (fetches t)) script (Rejected "fetch failed").

Definition stub (payloads : list value) (script : list outcome) : Runtime :=
  {| OPENAI_API_KEY := "sk-test";
     ASSISTANT_ID := "asst_test";
     JSON_parse := parse_known payloads;
     JSON_stringify := render;
     Number_toString := fun _ => "0";
     fetch := scripted script |}.

(** A 200 response whose text is the rendering of [v]. *)
Definition ok_json (v : value) : outcome := Resolved 200 (render v).

(** ** Vocabulary of the statements *)

Section Vocabulary.

Context {rt : Runtime}.

Definition generic_failure_message (status : Z) : string :=
  "OpenAI request failed (" +++ dec status +++ ")".

(** [data?.error?.message] *)
Definition payload_error_message (data : value) : value :=
  opt_get (opt_get data "error") "message".

(** The error contract of the upstream client as the specification words
    it: on a status outside the success range the failure carries the
    status and the parsed payload, and its message is the payload's
    [error.message] whenever that field is there (read here in the most
    favourable way: a string), the generic message when it is not. *)
Definition error_contract_as_stated : Prop :=
  forall path method body beta t status text,
    fetch t (openAI_request path method body beta) = Resolved status text ->
    res_ok status = false ->
    exists e,
      snd (openAI path method body beta t) = inl e
      /\ e_status e = Some status
      /\ e_data e = parse_payload text
      /\ (forall m, payload_error_message (parse_payload text) = JStr m ->
                    e_message e = m)
      /\ (payload_error_message (parse_payload text) = JUndefined ->
          e_message e = generic_failure_message status).

(** *** The poller *)

(** A run on which the loop of [waitForRunComplete] sleeps and goes on: it
    is an object and its status is none of the four terminal ones. *)
Definition pending (run : value) : bool :=
  negb (nullish run)
  && negb (strict_eq_str (prop run "status") "completed")
  && negb (is_failure_status (prop run "status")).

(** What one unfinished attempt adds to the trace. *)
Definition poll_round (threadId runId : value) : trace :=
  [EvFetch (getRun_request threadId runId); EvSleep 400].

(** The trace after [k] unfinished attempts that started at [t]. *)
Fixpoint after_polls (k : nat) (threadId runId : value) (t : trace) : trace :=
  match k with
  | O => t
  | S k' => after_polls k' threadId runId (t ++ poll_round threadId runId)
  end.

(** The status fetch number [k + 1] of a poller started at [t] returns
    [run]. *)
Definition status_fetch_returns (threadId runId : value) (t : trace)
    (k : nat) (run : value) : Prop :=
  snd (getRun threadId runId (after_polls k threadId runId t)) = inr run.

(** The first [k] status fetches all return runs that are pending. *)
Definition pending_for (threadId runId : value) (t : trace) (k : nat) : Prop :=
  forall j, (j < k)%nat ->
    exists run, status_fetch_returns threadId runId t j run
                /\ pending run = true.

(** [run.last_error?.message] *)
Definition run_error_message (run : value) : value :=
  opt_get (prop run "last_error") "message".

Definition timeout_error : exn :=
  Error "Timed out waiting for assistant response".

(** What a poller adds to the trace when its [N]-th status fetch is the
    last one: [N - 1] unfinished attempts and one more fetch. *)
Definition attempts (threadId runId : value) (N : nat) : trace :=
  concat (repeat (poll_round threadId runId) (N - 1))
  ++ [EvFetch (getRun_request threadId runId)].

Definition generic_run_message (status : value) : string :=
  "Run " +++ string_of status.

(** What line 86 throws for a run that has failed: an [Error] with the
    string form of [last_error.message] when that is truthy, the TypeError
    of the conversion when it has no string form, and an [Error] with the
    generic message otherwise. *)
Definition run_failure (run : value) : exn :=
  if truthy (run_error_message run) then
    match ToString (run_error_message run) with
    | inl type_error => type_error
    | inr message => Error message
    end
  else Error (generic_run_message (prop run "status")).

(** The failure of a run as the specification words it: when a status
    fetch returns a run that is failed, cancelled or expired the poller
    stops there with a failure whose message is the run's
    [last_error.message] whenever that is there (read in the most
    favourable way: a string), the generic message naming the status when
    it is not. *)
Definition run_failure_as_stated : Prop :=
  forall threadId runId t N run,
    (1 <= N <= 40)%nat ->
    pending_for threadId runId t (N - 1) ->
    status_fetch_returns threadId runId t (N - 1) run ->
    is_failure_status (prop run "status") = true ->
    exists e,
      waitForRunComplete threadId runId t
      = (t ++ attempts threadId runId N, inl e)
      /\ (forall m, run_error_message run = JStr m -> e_message e = m)
      /\ (run_error_message run = JUndefined ->
          e_message e = generic_run_message (prop run "status")).

(** *** The handlers *)

(** Lines 126-129 went through without an exception: starting at [t0]
    the handler settled on thread [tid], appended the message, created a
    run whose id is [runId], and stands at trace [t] before line 130. *)
Definition reaches_poller (threadId message : value) (t0 : trace)
    (tid runId : value) (t : trace) : Prop :=
  exists t1 t2 appended run,
    thread_for threadId t0 = (t1, inr tid)
    /\ addUserMessage tid message t1 = (t2, inr appended)
    /\ createRun tid t2 = (t, inr run)
    /\ get run "id" = inr runId.

(** [res.json({ threadId: tid, reply: reply || "" })] *)
Definition success_response (tid reply : value) : http_response :=
  json_response 200 (JObj [("threadId", tid); ("reply", js_or reply (JStr ""))]).

Definition invalid_message_response : http_response :=
  json_response 400 (JObj [("error", JStr "Missing or invalid 'message' string")]).

(** A failure that carries a status carries one outside the success
    range. *)
Definition carried_status_ok (e : exn) : Prop :=
  match e_status e with
  | Some s => res_ok s = false
  | None => True
  end.

(** A computation only ever adds to the end of the trace. *)
Definition extends {A} (c : M A) : Prop :=
  forall t, exists new, fst (c t) = t ++ new.

(** Every failure a computation raises satisfies [carried_status_ok]. *)
Definition raises_ok {A} (c : M A) : Prop :=
  forall t e, snd (c t) = inl e -> carried_status_ok e.

(** *** Reply extraction *)

(** An entry of the message list authored by the assistant, and one that
    is some other message. *)
Definition assistant_entry (m : value) : Prop :=
  prop m "role" = JStr "assistant".

Definition other_entry (m : value) : Prop :=
  nullish m = false /\ prop m "role" <> JStr "assistant".

(** The nested value [b.text.value] of a content block. *)
Definition text_of (b : value) : value := prop (prop b "text") "value".

(** A content block of type [text] whose nested value is non-empty
    (truthy; for a string: different from the empty string), and a block
    that is not. *)
Definition reply_block (b : value) : Prop :=
  prop b "type" = JStr "text" /\ truthy (text_of b) = true.

Definition skipped_block (b : value) : Prop :=
  nullish b = false /\ ~ reply_block b.

(** The entries of a message list, [Array.isArray(l?.data) ? l.data : []],
    and the blocks of a message. *)
Definition entries (messagesList : value) : list value :=
  array_or_empty (opt_get messagesList "data").

Definition blocks (m : value) : list value :=
  array_or_empty (prop m "content").

(** Totality of the reply extraction in its strongest form: on every value it
    returns null or a string, and it never throws. *)
Definition extraction_total_as_stated : Prop :=
  forall messagesList,
    exists r, extractLatestAssistantText messagesList = inr r
              /\ (r = JNull \/ exists s, r = JStr s).

(** The status of an error response as the specification words it: the
    carried status when there is one, else 500, for both routes. *)
Definition carried_or_500 (e : exn) : Z :=
  match e_status e with Some s => s | None => 500%Z end.

Definition failure_status_as_stated : Prop :=
  (forall t t' e,
      start_try t = (t', inl e) ->
      chat_start t = (t', json_response (carried_or_500 e) (error_body e)))
  /\ (forall req_body m t t' e,
        request_field req_body "message" = JStr m -> m <> "" ->
        send_try (request_field req_body "threadId") (JStr m) t = (t', inl e) ->
        chat_send req_body t
        = (t', json_response (carried_or_500 e) (error_body e))).

(** *** Resources and requests of a computation *)

(** The waits of a trace, in milliseconds. *)
Fixpoint sleeps (t : trace) : list Z :=
  match t with
  | [] => []
  | EvFetch _ :: rest => sleeps rest
  | EvSleep ms :: rest => ms :: sleeps rest
  end.

Definition total_wait (t : trace) : Z := fold_right Z.add 0%Z (sleeps t).

(** A request as the upstream client builds it for the conversation
    operations: the URL string begins with the base URL and [/threads], and
    the request has the bearer token, the beta header, and a JSON content
    type exactly when it has a body. *)
Definition relay_request (rq : request) : Prop :=
  String.prefix (OPENAI_BASE +++ "/threads") (rq_url rq) = true
  /\ In ("Authorization", "Bearer " +++ OPENAI_API_KEY) (rq_headers rq)
  /\ In ("OpenAI-Beta", "assistants=v2") (rq_headers rq)
  /\ (In ("Content-Type", "application/json") (rq_headers rq)
      <-> rq_body rq <> None).

(** Whatever the upstream does, the computation adds to the trace only
    requests that satisfy [P]. *)
Definition sends_only (P : request -> Prop) {A} (c : M A) : Prop :=
  forall t, exists new, fst (c t) = t ++ new /\ Forall P (fetches new).

(** Whatever the upstream does, the computation adds at most [nf] requests
    and [ns] waits, each wait of 400 ms. *)
Definition costs_at_most (nf ns : nat) {A} (c : M A) : Prop :=
  forall t, exists new,
    fst (c t) = t ++ new
    /\ (length (fetches new) <= nf)%nat
    /\ (length (sleeps new) <= ns)%nat
    /\ Forall (fun ms => ms = 400%Z) (sleeps new).

(** The payload the client falls back to when the body of a response is
    empty or is no JSON. *)
Definition fallback_payload (text : string) : value :=
  if text =? "" then JObj [] else JObj [("raw", JStr text)].

(** A failure that carries a status was raised for the response to the last
    request of the trace: that response had this status, and the failure
    carries its parsed payload. *)
Definition from_last_response (t' : trace) (e : exn) : Prop :=
  forall s, e_status e = Some s ->
    exists t0 rq text,
      t' = t0 ++ [EvFetch rq]
      /\ fetch t0 rq = Resolved s text
      /\ res_ok s = false
      /\ e_data e = parse_payload text.

Definition raises_from_last_response {A} (c : M A) : Prop :=
  forall t t' e, c t = (t', inl e) -> from_last_response t' e.

End Vocabulary.

(** ** Scenarios *)

Module Scenario.

Definition thread : value := JObj [("id", JStr "thread_1")].
Definition appended : value := JObj [("id", JStr "msg_1")].
Definition run_queued : value :=
  JObj [("id", JStr "run_1"); ("status", JStr "queued")].
Definition run_in_progress : value :=
  JObj [("id", JStr "run_1"); ("status", JStr "in_progress")].
Definition run_completed : value :=
  JObj [("id", JStr "run_1"); ("status", JStr "completed")].
Definition run_failed_boom : value :=
  JObj [("id", JStr "run_1"); ("status", JStr "failed");
        ("last_error", JObj [("code", JStr "server_error");
                             ("message", JStr "boom")])].
Definition run_failed_silent : value :=
  JObj [("id", JStr "run_1"); ("status", JStr "failed");
        ("last_error", JObj [("code", JStr "server_error");
                             ("message", JStr "")])].
Definition text_block (s : string) : value :=
  JObj [("type", JStr "text"); ("text", JObj [("value", JStr s)])].
Definition image_block : value :=
  JObj [("type", JStr "image_file"); ("image_file", JObj [("file_id", JStr "file_1")])].
Definition user_hi : value :=
  JObj [("role", JStr "user"); ("content", JArr [text_block "hi"])].
Definition assistant_hello : value :=
  JObj [("role", JStr "assistant");
        ("content", JArr [image_block; text_block "hello"; text_block "again"])].
Definition user_thanks : value :=
  JObj [("role", JStr "user"); ("content", JArr [text_block "thanks"])].
Definition messages : value :=
  JObj [("data", JArr [user_thanks; assistant_hello; user_hi])].
Definition unauthorized : value :=
  JObj [("error", JObj [("message", JStr "Incorrect API key provided");
                        ("type", JStr "invalid_request_error")])].
Definition silent_error : value :=
  JObj [("error", JObj [("message", JStr ""); ("type", JStr "server_error")])].

Definition payloads : list value :=
  [thread; appended; run_queued; run_in_progress; run_completed;
   run_failed_boom; run_failed_silent; messages; unauthorized; silent_error].

(** The request bodies of two clients: one without a thread, one with. *)
Definition first_message : value := JObj [("message", JStr "hi")].
Definition next_message : value :=
  JObj [("threadId", JStr "thread_1"); ("message", JStr "hi")].

(** The run completes on the second status fetch. *)
Definition completes : Runtime :=
  stub payloads
    [ok_json thread; ok_json appended; ok_json run_queued;
     ok_json run_in_progress; ok_json run_completed; ok_json messages].

(** The run never leaves [in_progress]. *)
Definition stalls : Runtime :=
  stub payloads
    ([ok_json thread; ok_json appended; ok_json run_queued]
     ++ repeat (ok_json run_in_progress) 40).

(** A poller whose first status fetch finds the run failed, with and
    without a message. *)
Definition fails_boom : Runtime := stub payloads [ok_json run_failed_boom].
Definition fails_silent : Runtime := stub payloads [ok_json run_failed_silent].

(** Upstream refuses the first request. *)
Definition refuses : Runtime :=
  stub payloads [Resolved 401 (render unauthorized)].
Definition breaks_silently : Runtime :=
  stub payloads [Resolved 500 (render silent_error)].

(** The trace of [first_message] when the handler reaches the poller. *)
Definition before_polling (rt : Runtime) : trace :=
  [EvFetch createThread_request;
   EvFetch (addUserMessage_request (JStr "thread_1") (JStr "hi"));
   EvFetch (createRun_request (JStr "thread_1"))].

End Scenario.

(** ** Scenarios at the edges *)

Module Edge.

Definition rate_limited : value :=
  JObj [("error", JObj [("message", JStr "Rate limit reached");
                        ("type", JStr "rate_limit_error")])].

(** A listing whose newest entry is [null]. *)
Definition messages_with_null : value :=
  JObj [("data", JArr [JNull; Scenario.assistant_hello; Scenario.user_hi])].

(** A listing with no entry of the assistant. *)
Definition messages_without_reply : value :=
  JObj [("data", JArr [Scenario.user_thanks; Scenario.user_hi])].

(** [{ "toString": false }]: an object that has no string form, since its
    own [toString] hides the inherited one and cannot be called. *)
Definition no_string_form : value := JObj [("toString", JBool false)].

Definition garbled_error : value :=
  JObj [("error", JObj [("message", no_string_form)])].
Definition thread_odd_id : value := JObj [("id", no_string_form)].
Definition run_odd_id : value :=
  JObj [("id", no_string_form); ("status", JStr "queued")].
Definition run_failed_oddly : value :=
  JObj [("id", JStr "run_1"); ("status", JStr "failed");
        ("last_error", JObj [("message", no_string_form)])].

Definition payloads : list value :=
  Scenario.payloads
  ++ [rate_limited; JNull; messages_with_null; messages_without_reply;
      garbled_error; thread_odd_id; run_odd_id; run_failed_oddly].

Definition empty_thread_message : value :=
  JObj [("threadId", JStr ""); ("message", JStr "hi")].

(** A gateway in front of the upstream answers with HTML. *)
Definition bad_gateway : Runtime :=
  stub payloads [Resolved 502 "<html>Bad Gateway</html>"].

(** The client names its thread and the run completes on the first status
    fetch. *)
Definition continues : Runtime :=
  stub payloads
    [ok_json Scenario.appended; ok_json Scenario.run_queued;
     ok_json Scenario.run_completed; ok_json Scenario.messages].

(** The second status fetch is refused with 429. *)
Definition throttled : Runtime :=
  stub payloads
    [ok_json Scenario.appended; ok_json Scenario.run_queued;
     ok_json Scenario.run_in_progress; Resolved 429 (render rate_limited)].

(** The first status fetch returns the body [null]. *)
Definition answers_null : Runtime :=
  stub payloads
    [ok_json Scenario.appended; ok_json Scenario.run_queued; ok_json JNull].

(** The run completes and the listing has a null entry. *)
Definition lists_null : Runtime :=
  stub payloads
    [ok_json Scenario.appended; ok_json Scenario.run_queued;
     ok_json Scenario.run_completed; ok_json messages_with_null].

(** The run completes and the listing has nothing from the assistant. *)
Definition no_reply : Runtime :=
  stub payloads
    [ok_json Scenario.appended; ok_json Scenario.run_queued;
     ok_json Scenario.run_completed; ok_json messages_without_reply].

(** Upstream answers 500 with an [error.message] that has no string form. *)
Definition garbles : Runtime :=
  stub payloads [Resolved 500 (render garbled_error)].

(** The created thread, and the created run, come with an id that has no
    string form. *)
Definition odd_thread : Runtime :=
  stub payloads [ok_json thread_odd_id; ok_json Scenario.appended].
Definition odd_run : Runtime :=
  stub payloads
    [ok_json Scenario.appended; ok_json run_odd_id; ok_json Scenario.run_completed].

(** The first status fetch finds the run failed, with a message that has no
    string form. *)
Definition fails_oddly : Runtime := stub payloads [ok_json run_failed_oddly].

(** No request is ever answered. *)
Definition down : Runtime := stub payloads [].

(** The trace of [Scenario.next_message] when the handler reaches the
    poller. *)
Definition before_polling (rt : Runtime) : trace :=
  [EvFetch (addUserMessage_request (JStr "thread_1") (JStr "hi"));
   EvFetch (createRun_request (JStr "thread_1"))].

End Edge.

(** ** Properties *)

Section Properties.

Context {rt : Runtime}.

(** *** The monad *)

Lemma bind_inr {A B} (c : M A) (k : A -> M B) t t1 a :
  c t = (t1, inr a) -> bind c k t = k a t1.
Proof. unfold bind; intros ->; reflexivity. Qed.

Lemma bind_inl {A B} (c : M A) (k : A -> M B) t t1 e :
  c t = (t1, inl e) -> bind c k t = (t1, inl e).
Proof. unfold bind; intros ->; reflexivity. Qed.

Lemma bind_inv_inr {A B} (c : M A) (k : A -> M B) t t' b :
  bind c k t = (t', inr b) ->
  exists t1 a, c t = (t1, inr a) /\ k a t1 = (t', inr b).
Proof.
  unfold bind. destruct (c t) as [t1 [e | a]]; intros E.
  - discriminate.
  - exists t1, a; auto.
Qed.

Lemma lift_inv_inr {A} (r : exn + A) t t' a :
  lift r t = (t', inr a) -> t' = t /\ r = inr a.
Proof. unfold lift; intros E; inversion E; auto. Qed.

(** *** Validation of the request body *)

(** Any message the guard of line 121 rejects: nothing is appended to the
    trace and the response is the 400 one. *)
Lemma chat_send_rejects req_body t :
  truthy (request_field req_body "message") = false
  \/ is_string (request_field req_body "message") = false ->
  chat_send req_body t = (t, invalid_message_response).
Proof.
  intros H. unfold chat_send.
  destruct H as [-> | ->]; simpl; rewrite ?orb_true_r; reflexivity.
Qed.

(** C2.  A request body whose [message] is missing or is not a string is
    answered with HTTP 400, and the handler leaves the trace as it found
    it: no upstream call of any kind (no thread creation, append, run,
    poll or list) and no wait. *)
Theorem chat_send_non_string_message req_body t :
  is_string (request_field req_body "message") = false ->
  chat_send req_body t = (t, invalid_message_response)
  /\ res_status (snd (chat_send req_body t)) = 400%Z
  /\ fetches (fst (chat_send req_body t)) = fetches t.
Proof.
  intros H.
  assert (E : chat_send req_body t = (t, invalid_message_response))
    by (apply chat_send_rejects; auto).
  rewrite E. auto.
Qed.

(** C10.  A request whose [message] is the empty string, present and of
    type string, is answered with HTTP 400 as well, again with no upstream
    call: the guard rejects every falsy message. *)
Theorem chat_send_empty_message req_body t :
  request_field req_body "message" = JStr "" ->
  chat_send req_body t = (t, invalid_message_response)
  /\ res_status (snd (chat_send req_body t)) = 400%Z
  /\ fetches (fst (chat_send req_body t)) = fetches t.
Proof.
  intros H.
  assert (E : chat_send req_body t = (t, invalid_message_response))
    by (apply chat_send_rejects; left; rewrite H; reflexivity).
  rewrite E. auto.
Qed.

(** *** The upstream client *)

Lemma openAI_trace path method body beta t :
  fst (openAI path method body beta t)
  = t ++ [EvFetch (openAI_request path method body beta)].
Proof.
  unfold openAI. destruct (fetch _ _); [reflexivity |].
  destruct (negb _); [| reflexivity].
  destruct (ToString _); reflexivity.
Qed.

Lemma openAI_raises path method body beta t e :
  snd (openAI path method body beta t) = inl e -> carried_status_ok e.
Proof.
  unfold openAI. destruct (fetch _ _) as [reason | status text]; simpl.
  - intros E; inversion E; exact I.
  - destruct (res_ok status) eqn:Ok; simpl; [discriminate |].
    unfold ToString. destruct (stringifies _); simpl; intros E; inversion E.
    + unfold carried_status_ok; simpl. exact Ok.
    + exact I.
Qed.

Lemma truthy_JStr s : truthy (JStr s) = true <-> s <> "".
Proof.
  simpl. destruct (String.eqb_spec s ""); simpl; split; intros; congruence.
Qed.

(** ToString on values that have a string form, and on those that have
    none. *)
Lemma ToString_ok v : stringifies v = true -> ToString v = inr (string_of v).
Proof. unfold ToString. intros ->. reflexivity. Qed.

Lemma ToString_throws v : stringifies v = false -> ToString v = inl TypeError_convert.
Proof. unfold ToString. intros ->. reflexivity. Qed.

Lemma ToString_inr v s : ToString v = inr s -> stringifies v = true /\ s = string_of v.
Proof.
  unfold ToString. destruct (stringifies v); intros E; inversion E. auto.
Qed.

Lemma with_string_ok {A} v (k : string -> M A) t :
  stringifies v = true -> bind (lift (ToString v)) k t = k (string_of v) t.
Proof. intros H. unfold bind, lift. rewrite (ToString_ok v H). reflexivity. Qed.

Lemma with_string_throws {A} v (k : string -> M A) t :
  stringifies v = false ->
  bind (lift (ToString v)) k t = (t, inl TypeError_convert).
Proof. intros H. unfold bind, lift. rewrite (ToString_throws v H). reflexivity. Qed.

(** C7, amended.  On a response whose status is outside 200-299 the
    client makes no further request and raises a failure.  When the
    payload's [error.message] is a non-empty string the failure has it as
    its message, and when the field is falsy (absent, null, the empty
    string, ...) it has the generic message naming the status; in both
    cases it carries the status and the whole parsed payload.  A truthy
    field that is no string is converted: the failure then has the string
    form as its message, with status and payload, and when the field has no
    string form the TypeError of the conversion is raised in its place,
    with neither status nor payload. *)
Theorem openAI_error_contract path method body beta t status text :
  fetch t (openAI_request path method body beta) = Resolved status text ->
  res_ok status = false ->
  exists e,
    openAI path method body beta t
    = (t ++ [EvFetch (openAI_request path method body beta)], inl e)
    /\ (forall m, payload_error_message (parse_payload text) = JStr m ->
                  m <> "" ->
                  e = {| e_message := m;
                         e_status := Some status;
                         e_data := parse_payload text |})
    /\ (truthy (payload_error_message (parse_payload text)) = false ->
        e = {| e_message := generic_failure_message status;
               e_status := Some status;
               e_data := parse_payload text |})
    /\ (truthy (payload_error_message (parse_payload text)) = true ->
        stringifies (payload_error_message (parse_payload text)) = true ->
        e = {| e_message := string_of (payload_error_message (parse_payload text));
               e_status := Some status;
               e_data := parse_payload text |})
    /\ (truthy (payload_error_message (parse_payload text)) = true ->
        stringifies (payload_error_message (parse_payload text)) = false ->
        e = TypeError_convert).
Proof.
  intros Hf Hok. unfold openAI. rewrite Hf, Hok. simpl.
  fold (payload_error_message (parse_payload text)).
  fold (generic_failure_message status).
  unfold js_or.
  destruct (truthy (payload_error_message (parse_payload text))) eqn:Ht.
  - unfold ToString.
    destruct (stringifies (payload_error_message (parse_payload text))) eqn:Hs;
      (eexists; split; [reflexivity |]);
      (split; [| split; [| split]]).
    + intros m Hm Hne. rewrite Hm. reflexivity.
    + discriminate.
    + reflexivity.
    + discriminate.
    + intros m Hm Hne. rewrite Hm in Hs. discriminate Hs.
    + discriminate.
    + discriminate.
    + reflexivity.
  - eexists; split; [reflexivity |]. split; [| split; [| split]].
    + intros m Hm Hne. rewrite Hm in Ht.
      destruct (truthy_JStr m) as [_ Ht']. rewrite (Ht' Hne) in Ht. discriminate Ht.
    + reflexivity.
    + discriminate.
    + discriminate.
Qed.

(** *** The poller *)

Lemma fetches_app t1 t2 : fetches (t1 ++ t2) = fetches t1 ++ fetches t2.
Proof.
  induction t1 as [| [rq | ms] t1 IH]; simpl; [reflexivity | f_equal; exact IH | exact IH].
Qed.

(** A status fetch whose ids have a string form is one request; when an
    id has none nothing is requested. *)
Lemma getRun_made threadId runId t :
  stringifies threadId = true -> stringifies runId = true ->
  getRun threadId runId t
  = (t ++ [EvFetch (getRun_request threadId runId)],
     snd (getRun threadId runId t)).
Proof.
  intros Ht Hr.
  rewrite (surjective_pairing (getRun threadId runId t)) at 1.
  unfold getRun at 1. rewrite (with_string_ok _ _ _ Ht), (with_string_ok _ _ _ Hr).
  rewrite openAI_trace. reflexivity.
Qed.

Lemma getRun_not_made threadId runId t :
  stringifies threadId && stringifies runId = false ->
  getRun threadId runId t = (t, inl TypeError_convert).
Proof.
  intros H. unfold getRun.
  destruct (stringifies threadId) eqn:Ht; [| apply with_string_throws; exact Ht].
  rewrite (with_string_ok _ _ _ Ht). simpl in H.
  apply with_string_throws. exact H.
Qed.

Lemma getRun_run threadId runId t run :
  snd (getRun threadId runId t) = inr run ->
  getRun threadId runId t
  = (t ++ [EvFetch (getRun_request threadId runId)], inr run).
Proof.
  intros H.
  destruct (stringifies threadId && stringifies runId) eqn:Hs.
  - apply andb_prop in Hs. destruct Hs as [Ht Hr].
    rewrite (getRun_made _ _ _ Ht Hr), H. reflexivity.
  - rewrite (getRun_not_made _ _ _ Hs) in H. discriminate H.
Qed.

Lemma failure_not_completed status :
  is_failure_status status = true -> strict_eq_str status "completed" = false.
Proof.
  unfold is_failure_status. destruct status; simpl; try discriminate.
  intros H. apply orb_prop in H. destruct H as [H | H];
    [apply orb_prop in H; destruct H as [H | H] |];
    apply String.eqb_eq in H; subst; reflexivity.
Qed.

(** Line 86 leaves the trace as it is and throws [run_failure]. *)
Lemma throw_run_failure_run run t :
  is_failure_status (prop run "status") = true ->
  throw_run_failure run (prop run "status") t = (t, inl (run_failure run)).
Proof.
  intros Hf.
  unfold throw_run_failure, run_failure, generic_run_message, run_error_message.
  destruct (truthy (opt_get (prop run "last_error") "message")).
  - unfold bind, ret, lift, throw.
    destruct (ToString (opt_get (prop run "last_error") "message")); reflexivity.
  - destruct (prop run "status") as [| | | | s | |]; try discriminate Hf.
    reflexivity.
Qed.

Lemma throw_run_failure_plain run status t :
  exists e, throw_run_failure run status t = (t, inl e) /\ e_status e = None.
Proof.
  unfold throw_run_failure, bind, ret, lift, throw, ToString.
  destruct (truthy (opt_get (prop run "last_error") "message")).
  - destruct (stringifies (opt_get (prop run "last_error") "message"));
      eexists; split; reflexivity.
  - destruct (stringifies status); [| eexists; split; reflexivity].
    eexists; split; reflexivity.
Qed.

Lemma poll_step_pending n threadId runId t run :
  snd (getRun threadId runId t) = inr run ->
  pending run = true ->
  poll (S n) threadId runId t
  = poll n threadId runId (t ++ poll_round threadId runId).
Proof.
  intros Hrun Hp. unfold pending in Hp.
  apply andb_prop in Hp. destruct Hp as [Hp Hf].
  apply andb_prop in Hp. destruct Hp as [Hn Hc].
  apply negb_true_iff in Hn, Hc, Hf.
  simpl. unfold bind at 1. rewrite (getRun_run _ _ _ _ Hrun).
  unfold bind at 1, lift, get. rewrite Hn, Hc, Hf.
  unfold bind, sleep, poll_round. rewrite <- app_assoc. reflexivity.
Qed.

Lemma poll_step_completed n threadId runId t run :
  snd (getRun threadId runId t) = inr run ->
  strict_eq_str (prop run "status") "completed" = true ->
  poll (S n) threadId runId t
  = (t ++ [EvFetch (getRun_request threadId runId)], inr run).
Proof.
  intros Hrun Hc.
  assert (Hn : nullish run = false)
    by (destruct run; try reflexivity; discriminate Hc).
  simpl. unfold bind at 1. rewrite (getRun_run _ _ _ _ Hrun).
  unfold bind, lift, get. rewrite Hn, Hc. reflexivity.
Qed.

Lemma poll_step_failed n threadId runId t run :
  snd (getRun threadId runId t) = inr run ->
  is_failure_status (prop run "status") = true ->
  poll (S n) threadId runId t
  = (t ++ [EvFetch (getRun_request threadId runId)], inl (run_failure run)).
Proof.
  intros Hrun Hf.
  assert (Hn : nullish run = false)
    by (destruct run; try reflexivity; discriminate Hf).
  simpl. unfold bind at 1. rewrite (getRun_run _ _ _ _ Hrun).
  unfold bind at 1. unfold lift at 1. unfold get.
  rewrite Hn, (failure_not_completed _ Hf), Hf.
  apply throw_run_failure_run. exact Hf.
Qed.

(** As long as the status fetches return pending runs the loop goes
    round. *)
Lemma poll_pending k : forall n threadId runId t,
  pending_for threadId runId t k ->
  poll (k + n) threadId runId t
  = poll n threadId runId (after_polls k threadId runId t).
Proof.
  induction k as [| k IH]; intros n threadId runId t H; [reflexivity |].
  destruct (H 0%nat) as [run [Hrun Hp]]; [lia |].
  change (S k + n)%nat with (S (k + n)).
  rewrite (poll_step_pending _ _ _ _ run Hrun Hp).
  simpl after_polls. apply IH.
  intros j Hj. destruct (H (S j)) as [r [Hr Hpr]]; [lia |].
  exists r. split; [exact Hr | exact Hpr].
Qed.

Lemma after_polls_events k : forall threadId runId t,
  after_polls k threadId runId t
  = t ++ concat (repeat (poll_round threadId runId) k).
Proof.
  induction k as [| k IH]; intros threadId runId t; simpl.
  - rewrite app_nil_r. reflexivity.
  - rewrite IH, <- app_assoc. reflexivity.
Qed.

Lemma fetches_rounds threadId runId k :
  fetches (concat (repeat (poll_round threadId runId) k))
  = repeat (getRun_request threadId runId) k.
Proof.
  induction k as [| k IH]; simpl; [reflexivity | f_equal; exact IH].
Qed.

(** The requests of [k] unfinished attempts followed by one more status
    fetch: [k + 1] status fetches and nothing else. *)
Lemma fetches_attempts threadId runId k :
  fetches (concat (repeat (poll_round threadId runId) k)
           ++ [EvFetch (getRun_request threadId runId)])
  = repeat (getRun_request threadId runId) (S k).
Proof.
  rewrite fetches_app, fetches_rounds. simpl.
  change (getRun_request threadId runId :: repeat (getRun_request threadId runId) k)
    with (repeat (getRun_request threadId runId) (S k)).
  rewrite <- repeat_cons. reflexivity.
Qed.

(** *** The handlers *)

Lemma openAI_run path method body beta t :
  openAI path method body beta t
  = (t ++ [EvFetch (openAI_request path method body beta)],
     snd (openAI path method body beta t)).
Proof.
  rewrite (surjective_pairing (openAI path method body beta t)) at 1.
  rewrite openAI_trace. reflexivity.
Qed.

(** The operations on a thread whose id has a string form make one request
    each; on an id that has none they throw before any request. *)
Lemma addUserMessage_run threadId text t :
  stringifies threadId = true ->
  addUserMessage threadId text t
  = (t ++ [EvFetch (addUserMessage_request threadId text)],
     snd (addUserMessage threadId text t)).
Proof.
  intros H. rewrite (surjective_pairing (addUserMessage threadId text t)) at 1.
  unfold addUserMessage at 1. rewrite (with_string_ok _ _ _ H), openAI_trace.
  reflexivity.
Qed.

Lemma createRun_run threadId t :
  stringifies threadId = true ->
  createRun threadId t
  = (t ++ [EvFetch (createRun_request threadId)], snd (createRun threadId t)).
Proof.
  intros H. rewrite (surjective_pairing (createRun threadId t)) at 1.
  unfold createRun at 1. rewrite (with_string_ok _ _ _ H), openAI_trace.
  reflexivity.
Qed.

Lemma listMessages_run threadId limit t :
  stringifies threadId = true ->
  listMessages threadId limit t
  = (t ++ [EvFetch (listMessages_request threadId limit)],
     snd (listMessages threadId limit t)).
Proof.
  intros H. rewrite (surjective_pairing (listMessages threadId limit t)) at 1.
  unfold listMessages at 1. rewrite (with_string_ok _ _ _ H), openAI_trace.
  reflexivity.
Qed.

Lemma addUserMessage_returns threadId text t t' appended :
  addUserMessage threadId text t = (t', inr appended) ->
  stringifies threadId = true
  /\ t' = t ++ [EvFetch (addUserMessage_request threadId text)].
Proof.
  intros H. destruct (stringifies threadId) eqn:Hs.
  - rewrite (addUserMessage_run _ _ _ Hs) in H. injection H as <- _. auto.
  - unfold addUserMessage in H. rewrite (with_string_throws _ _ _ Hs) in H.
    discriminate H.
Qed.

Lemma createRun_returns threadId t t' run :
  createRun threadId t = (t', inr run) ->
  t' = t ++ [EvFetch (createRun_request threadId)].
Proof.
  intros H. destruct (stringifies threadId) eqn:Hs.
  - rewrite (createRun_run _ _ Hs) in H. injection H as <- _. auto.
  - unfold createRun in H. rewrite (with_string_throws _ _ _ Hs) in H.
    discriminate H.
Qed.

Lemma listMessages_returns threadId limit t t' msgs :
  listMessages threadId limit t = (t', inr msgs) ->
  t' = t ++ [EvFetch (listMessages_request threadId limit)].
Proof.
  intros H. destruct (stringifies threadId) eqn:Hs.
  - rewrite (listMessages_run _ _ _ Hs) in H. injection H as <- _. auto.
  - unfold listMessages in H. rewrite (with_string_throws _ _ _ Hs) in H.
    discriminate H.
Qed.

Lemma reaches_poller_stringifies threadId message t0 tid runId t :
  reaches_poller threadId message t0 tid runId t -> stringifies tid = true.
Proof.
  intros (t1 & t2 & a & run & _ & H2 & _).
  exact (proj1 (addUserMessage_returns _ _ _ _ _ H2)).
Qed.

Lemma chat_send_valid req_body m t :
  request_field req_body "message" = JStr m -> m <> "" ->
  chat_send req_body t
  = match send_try (request_field req_body "threadId") (JStr m) t with
    | (t', inr r) => (t', r)
    | (t', inl e) => (t', json_response (status_or e 500) (error_body e))
    end.
Proof.
  intros Hm Hne. unfold chat_send. rewrite Hm.
  destruct (truthy_JStr m) as [_ Ht]. rewrite (Ht Hne). reflexivity.
Qed.

(** The [try] block of [/chat/send] from line 130 on, when the poller
    raises. *)
Lemma send_try_poller_raises threadId message t0 tid runId t t' e :
  reaches_poller threadId message t0 tid runId t ->
  waitForRunComplete tid runId t = (t', inl e) ->
  send_try threadId message t0 = (t', inl e).
Proof.
  intros (t1 & t2 & a & run & H1 & H2 & H3 & H4) Hw.
  unfold send_try.
  rewrite (bind_inr _ _ _ _ _ H1), (bind_inr _ _ _ _ _ H2),
          (bind_inr _ _ _ _ _ H3).
  rewrite (bind_inr (lift (get run "id")) _ t t runId)
    by (unfold lift; rewrite H4; reflexivity).
  apply bind_inl. exact Hw.
Qed.

(** The same when the poller returns: one more request, the message
    listing, then the extraction, which decides the outcome. *)
Lemma send_try_poller_returns threadId message t0 tid runId t t' run :
  reaches_poller threadId message t0 tid runId t ->
  waitForRunComplete tid runId t = (t', inr run) ->
  send_try threadId message t0
  = (t' ++ [EvFetch (listMessages_request tid 20)],
     match snd (listMessages tid 20 t') with
     | inl e => inl e
     | inr msgs =>
         match extractLatestAssistantText msgs with
         | inl e => inl e
         | inr reply => inr (success_response tid reply)
         end
     end).
Proof.
  intros Hreach Hw.
  pose proof (reaches_poller_stringifies _ _ _ _ _ _ Hreach) as Hs.
  destruct Hreach as (t1 & t2 & a & r & H1 & H2 & H3 & H4).
  unfold send_try.
  rewrite (bind_inr _ _ _ _ _ H1), (bind_inr _ _ _ _ _ H2),
          (bind_inr _ _ _ _ _ H3).
  rewrite (bind_inr (lift (get r "id")) _ t t runId)
    by (unfold lift; rewrite H4; reflexivity).
  rewrite (bind_inr _ _ _ _ _ Hw).
  pose proof (listMessages_run tid 20 t' Hs) as El.
  destruct (snd (listMessages tid 20 t')) as [e | msgs].
  - rewrite (bind_inl _ _ _ _ _ El). reflexivity.
  - rewrite (bind_inr _ _ _ _ _ El). unfold bind, lift, ret.
    destruct (extractLatestAssistantText msgs); reflexivity.
Qed.

Lemma thread_for_trace threadId t t' tid :
  thread_for threadId t = (t', inr tid) ->
  t' = t \/ t' = t ++ [EvFetch createThread_request].
Proof.
  unfold thread_for. destruct (truthy threadId && is_string threadId).
  - intros E; inversion E; auto.
  - intros E. apply bind_inv_inr in E. destruct E as (t1 & thread & Hc & Hl).
    apply lift_inv_inr in Hl. destruct Hl as [-> _].
    unfold createThread in Hc. rewrite openAI_run in Hc. inversion Hc; auto.
Qed.

(** Everything the handler requested before polling was a POST. *)
Lemma reaches_poller_trace threadId message t0 tid runId t :
  reaches_poller threadId message t0 tid runId t ->
  exists pre, t = t0 ++ pre
              /\ Forall (fun rq => rq_method rq = "POST") (fetches pre).
Proof.
  intros (t1 & t2 & a & run & H1 & H2 & H3 & H4).
  apply addUserMessage_returns in H2. destruct H2 as [_ E2].
  apply createRun_returns in H3.
  destruct (thread_for_trace _ _ _ _ H1) as [E1 | E1]; subst t t2 t1;
    rewrite <- !app_assoc; eexists; (split; [reflexivity |]);
    simpl; repeat constructor.
Qed.

(** *** Reply extraction *)

Lemma opt_get_prop v k : opt_get v k = prop v k.
Proof. destruct v; reflexivity. Qed.

Lemma strict_eq_str_true v lit : strict_eq_str v lit = true <-> v = JStr lit.
Proof.
  destruct v; simpl; try (split; [discriminate | congruence]).
  rewrite String.eqb_eq. split; [intros -> | intros E; inversion E]; reflexivity.
Qed.

Lemma strict_eq_str_false v lit : strict_eq_str v lit = false <-> v <> JStr lit.
Proof.
  rewrite <- strict_eq_str_true. destruct (strict_eq_str v lit); split;
    congruence.
Qed.

Lemma is_assistant_entry m : assistant_entry m -> is_assistant m = inr true.
Proof.
  unfold assistant_entry, is_assistant, get. intros H.
  destruct m; try discriminate H. simpl in *. rewrite H. reflexivity.
Qed.

Lemma is_assistant_other m : other_entry m -> is_assistant m = inr false.
Proof.
  unfold other_entry, is_assistant, get. intros [Hn Hr]. rewrite Hn.
  apply strict_eq_str_false in Hr. rewrite Hr. reflexivity.
Qed.

Lemma is_text_block_reply b : reply_block b -> is_text_block b = inr true.
Proof.
  unfold reply_block, is_text_block, get, text_of. intros [Ht Hv].
  destruct b; try discriminate Ht. simpl nullish. cbv iota.
  rewrite Ht, opt_get_prop, Hv. reflexivity.
Qed.

Lemma is_text_block_skipped b : skipped_block b -> is_text_block b = inr false.
Proof.
  unfold skipped_block, reply_block, is_text_block, get, text_of.
  intros [Hn Hno]. rewrite Hn, opt_get_prop.
  destruct (strict_eq_str (prop b "type") "text") eqn:Et; [| reflexivity].
  destruct (truthy (prop (prop b "text") "value")) eqn:Ev; [| reflexivity].
  exfalso. apply Hno. split; [apply strict_eq_str_true; exact Et | reflexivity].
Qed.

(** [find] returns the first element the callback accepts once it has
    rejected, without throwing, all the elements before it. *)
Lemma find_value_first p pre x post :
  Forall (fun y => p y = inr false) pre -> p x = inr true ->
  find_value p (pre ++ x :: post) = inr x.
Proof.
  intros Hpre Hx. induction Hpre as [| y pre Hy _ IH]; simpl.
  - rewrite Hx. reflexivity.
  - rewrite Hy. exact IH.
Qed.

Lemma find_value_none p l :
  Forall (fun y => p y = inr false) l -> find_value p l = inr JUndefined.
Proof.
  intros H. induction H as [| y l Hy _ IH]; simpl; [reflexivity |].
  rewrite Hy. exact IH.
Qed.

Lemma Forall_other pre :
  Forall other_entry pre -> Forall (fun y => is_assistant y = inr false) pre.
Proof. apply Forall_impl. exact is_assistant_other. Qed.

Lemma Forall_skipped bs :
  Forall skipped_block bs -> Forall (fun y => is_text_block y = inr false) bs.
Proof. apply Forall_impl. exact is_text_block_skipped. Qed.

Lemma assistant_entry_truthy m : assistant_entry m -> truthy m = true.
Proof. unfold assistant_entry. destruct m; intros H; try discriminate H. reflexivity. Qed.

Lemma extract_first_assistant messagesList pre m post :
  entries messagesList = pre ++ m :: post ->
  Forall other_entry pre -> assistant_entry m ->
  extractLatestAssistantText messagesList
  = match find_value is_text_block (blocks m) with
    | inl e => inl e
    | inr textBlock =>
        inr (js_coalesce (opt_get (opt_get textBlock "text") "value") JNull)
    end.
Proof.
  intros He Hpre Hm. unfold extractLatestAssistantText.
  fold (entries messagesList). rewrite He.
  rewrite (find_value_first _ _ _ _ (Forall_other _ Hpre) (is_assistant_entry _ Hm)).
  rewrite (assistant_entry_truthy _ Hm). reflexivity.
Qed.

(** *** Two invariants of asynchronous code: traces grow, and a carried
    status is never a success status *)

Lemma extends_ret {A} (a : A) : extends (ret a).
Proof. intros t. exists []. simpl. rewrite app_nil_r. reflexivity. Qed.

Lemma extends_throw {A} e : extends (@throw A e).
Proof. intros t. exists []. simpl. rewrite app_nil_r. reflexivity. Qed.

Lemma extends_lift {A} (r : exn + A) : extends (lift r).
Proof. intros t. exists []. simpl. rewrite app_nil_r. reflexivity. Qed.

Lemma extends_bind {A B} (c : M A) (k : A -> M B) :
  extends c -> (forall a, extends (k a)) -> extends (bind c k).
Proof.
  intros Hc Hk t. unfold bind. destruct (Hc t) as [n1 E1].
  destruct (c t) as [t1 [e | a]]; simpl in E1; subst t1.
  - exists n1. reflexivity.
  - destruct (Hk a (t ++ n1)) as [n2 E2]. exists (n1 ++ n2).
    rewrite E2, app_assoc. reflexivity.
Qed.

Lemma extends_openAI path method body beta :
  extends (openAI path method body beta).
Proof. intros t. eexists. apply openAI_trace. Qed.

Lemma extends_sleep ms : extends (sleep ms).
Proof. intros t. eexists. reflexivity. Qed.

Lemma extends_run_failure run status : extends (throw_run_failure run status).
Proof.
  intros t. exists []. destruct (throw_run_failure_plain run status t) as (e & E & _).
  rewrite E, app_nil_r. reflexivity.
Qed.

(** An operation of the client: one request, after the conversion of its
    ids where it has ids. *)
Ltac extends_op :=
  first [ apply extends_openAI
        | unfold addUserMessage, createRun, getRun, listMessages;
          repeat (apply extends_bind; [apply extends_lift | intros ?]);
          apply extends_openAI ].

Lemma extends_poll n threadId runId : extends (poll n threadId runId).
Proof.
  induction n as [| n IH]; simpl.
  - apply extends_throw.
  - apply extends_bind; [extends_op | intros run].
    apply extends_bind; [apply extends_lift | intros status].
    destruct (strict_eq_str status "completed"); [apply extends_ret |].
    destruct (is_failure_status status); [apply extends_run_failure |].
    apply extends_bind; [apply extends_sleep | intros _; exact IH].
Qed.

Lemma raises_ok_ret {A} (a : A) : raises_ok (ret a).
Proof. intros t e E. discriminate E. Qed.

Lemma raises_ok_throw {A} msg : raises_ok (@throw A (Error msg)).
Proof. intros t e E. inversion E. exact I. Qed.

Lemma raises_ok_bind {A B} (c : M A) (k : A -> M B) :
  raises_ok c -> (forall a, raises_ok (k a)) -> raises_ok (bind c k).
Proof.
  intros Hc Hk t e. unfold bind. specialize (Hc t).
  destruct (c t) as [t1 [e1 | a]]; simpl in *.
  - intros E. inversion E; subst. apply Hc. reflexivity.
  - apply Hk.
Qed.

Lemma raises_ok_openAI path method body beta :
  raises_ok (openAI path method body beta).
Proof. intros t e. apply openAI_raises. Qed.

Lemma raises_ok_get v k : raises_ok (lift (get v k)).
Proof.
  intros t e. unfold lift, get. simpl.
  destruct (nullish v); intros E; inversion E. exact I.
Qed.

Lemma raises_ok_sleep ms : raises_ok (sleep ms).
Proof. intros t e E. discriminate E. Qed.

Lemma raises_ok_ToString v : raises_ok (lift (ToString v)).
Proof.
  intros t e. unfold lift, ToString. simpl.
  destruct (stringifies v); intros E; inversion E. exact I.
Qed.

Lemma raises_ok_run_failure run status : raises_ok (throw_run_failure run status).
Proof.
  intros t e. destruct (throw_run_failure_plain run status t) as (e' & E & He).
  rewrite E. simpl. intros E'. injection E' as <-.
  unfold carried_status_ok. rewrite He. exact I.
Qed.

Ltac raises_ok_op :=
  first [ apply raises_ok_openAI
        | unfold addUserMessage, createRun, getRun, listMessages;
          repeat (apply raises_ok_bind; [apply raises_ok_ToString | intros ?]);
          apply raises_ok_openAI ].

Lemma raises_ok_poll n threadId runId : raises_ok (poll n threadId runId).
Proof.
  induction n as [| n IH]; simpl.
  - apply raises_ok_throw.
  - apply raises_ok_bind; [raises_ok_op | intros run].
    apply raises_ok_bind; [apply raises_ok_get | intros status].
    destruct (strict_eq_str status "completed"); [apply raises_ok_ret |].
    destruct (is_failure_status status); [apply raises_ok_run_failure |].
    apply raises_ok_bind; [apply raises_ok_sleep | intros _; exact IH].
Qed.

(** The only exceptions of the extractor are the TypeErrors of its
    property reads. *)
Lemma find_value_raises (p : value -> exn + bool) l e :
  (forall x e', p x = inl e' -> e_status e' = None) ->
  find_value p l = inl e -> e_status e = None.
Proof.
  intros Hp. induction l as [| x l IH]; simpl; [discriminate |].
  destruct (p x) as [e' | [|]] eqn:Ex.
  - intros E. inversion E; subst. eapply Hp; eauto.
  - discriminate.
  - exact IH.
Qed.

Lemma get_raises v k e : get v k = inl e -> e_status e = None.
Proof. unfold get. destruct (nullish v); intros E; inversion E. reflexivity. Qed.

Lemma extract_raises v e :
  extractLatestAssistantText v = inl e -> e_status e = None.
Proof.
  unfold extractLatestAssistantText.
  destruct (find_value is_assistant _) as [e1 | a] eqn:E1.
  - intros E. inversion E; subst. revert E1. apply find_value_raises.
    intros x e'. unfold is_assistant.
    destruct (get x "role") eqn:G; intros E'; inversion E'; subst.
    eapply get_raises; eauto.
  - destruct (negb (truthy a)); [discriminate |].
    destruct (find_value is_text_block _) as [e2 | b] eqn:E2; [| discriminate].
    intros E. inversion E; subst. revert E2. apply find_value_raises.
    intros x e'. unfold is_text_block.
    destruct (get x "type") eqn:G; intros E'; inversion E'; subst.
    eapply get_raises; eauto.
Qed.

Lemma raises_ok_extract v : raises_ok (lift (extractLatestAssistantText v)).
Proof.
  intros t e. unfold lift. simpl. intros E.
  unfold carried_status_ok. rewrite (extract_raises _ _ E). exact I.
Qed.

Lemma raises_ok_thread_for threadId : raises_ok (thread_for threadId).
Proof.
  unfold thread_for. destruct (truthy threadId && is_string threadId).
  - apply raises_ok_ret.
  - apply raises_ok_bind; [raises_ok_op | intros; apply raises_ok_get].
Qed.

Lemma raises_ok_send_try threadId message : raises_ok (send_try threadId message).
Proof.
  unfold send_try.
  apply raises_ok_bind; [apply raises_ok_thread_for | intros tid].
  apply raises_ok_bind; [raises_ok_op | intros _].
  apply raises_ok_bind; [raises_ok_op | intros run].
  apply raises_ok_bind; [apply raises_ok_get | intros runId].
  apply raises_ok_bind; [apply raises_ok_poll | intros _].
  apply raises_ok_bind; [raises_ok_op | intros msgs].
  apply raises_ok_bind; [apply raises_ok_extract | intros reply].
  apply raises_ok_ret.
Qed.

Lemma raises_ok_start_try : raises_ok start_try.
Proof.
  unfold start_try.
  apply raises_ok_bind; [raises_ok_op | intros thread].
  apply raises_ok_bind; [apply raises_ok_get | intros id].
  apply raises_ok_ret.
Qed.

(** The status an error response of [/chat/send] goes out with is never
    200. *)
Lemma status_or_not_200 e : carried_status_ok e -> status_or e 500 <> 200%Z.
Proof.
  unfold carried_status_ok, status_or. destruct (e_status e) as [s |].
  - intros Hs. destruct (Z.eqb_spec s 0); [discriminate |].
    intros ->. discriminate Hs.
  - discriminate.
Qed.

(** *** Claims on the poller *)

Lemma poll_after_pending K m threadId runId t :
  (K + m = 40)%nat ->
  pending_for threadId runId t K ->
  waitForRunComplete threadId runId t
  = poll m threadId runId (t ++ concat (repeat (poll_round threadId runId) K)).
Proof.
  intros E H. unfold waitForRunComplete. rewrite <- E.
  rewrite (poll_pending K m _ _ _ H), after_polls_events. reflexivity.
Qed.

Lemma status_fetch_at threadId runId t k run :
  status_fetch_returns threadId runId t k run ->
  snd (getRun threadId runId
         (t ++ concat (repeat (poll_round threadId runId) k))) = inr run.
Proof.
  unfold status_fetch_returns. rewrite after_polls_events. auto.
Qed.

Lemma fetches_attempts_N threadId runId N :
  (1 <= N)%nat ->
  fetches (attempts threadId runId N) = repeat (getRun_request threadId runId) N.
Proof.
  intros H. unfold attempts. rewrite fetches_attempts.
  replace (S (N - 1)) with N by lia. reflexivity.
Qed.

(** The poller returns the run of its [N]-th status fetch when that one
    is completed and the earlier ones were pending. *)
Lemma waitForRunComplete_completed threadId runId t N run :
  (1 <= N <= 40)%nat ->
  pending_for threadId runId t (N - 1) ->
  status_fetch_returns threadId runId t (N - 1) run ->
  prop run "status" = JStr "completed" ->
  waitForRunComplete threadId runId t
  = (t ++ attempts threadId runId N, inr run).
Proof.
  intros HN Hp Hr Hs.
  rewrite (poll_after_pending (N - 1) (S (40 - N))) by (lia || exact Hp).
  rewrite (poll_step_completed _ _ _ _ run (status_fetch_at _ _ _ _ _ Hr))
    by (rewrite Hs; reflexivity).
  unfold attempts. rewrite <- app_assoc. reflexivity.
Qed.

Lemma waitForRunComplete_failed threadId runId t N run :
  (1 <= N <= 40)%nat ->
  pending_for threadId runId t (N - 1) ->
  status_fetch_returns threadId runId t (N - 1) run ->
  is_failure_status (prop run "status") = true ->
  waitForRunComplete threadId runId t
  = (t ++ attempts threadId runId N, inl (run_failure run)).
Proof.
  intros HN Hp Hr Hs.
  rewrite (poll_after_pending (N - 1) (S (40 - N))) by (lia || exact Hp).
  rewrite (poll_step_failed _ _ _ _ run (status_fetch_at _ _ _ _ _ Hr) Hs).
  unfold attempts. rewrite <- app_assoc. reflexivity.
Qed.

Lemma waitForRunComplete_timeout threadId runId t :
  pending_for threadId runId t 40 ->
  waitForRunComplete threadId runId t
  = (t ++ concat (repeat (poll_round threadId runId) 40), inl timeout_error).
Proof.
  intros Hp. rewrite (poll_after_pending 40 0) by (lia || exact Hp).
  reflexivity.
Qed.

(** C3.  Let a [/chat/send] request with a valid message reach the poller.
    For every N from 1 to 40, if the first N - 1 status fetches return
    pending runs and the N-th returns a run whose status is [completed],
    then the poller returns that run after exactly N status fetches (and
    N - 1 waits), and the handler's next and last action is the
    list-messages request for the thread. *)
Theorem completed_on_Nth_fetch req_body m t0 threadId runId t N run :
  request_field req_body "message" = JStr m -> m <> "" ->
  reaches_poller (request_field req_body "threadId") (JStr m) t0 threadId runId t ->
  (1 <= N <= 40)%nat ->
  pending_for threadId runId t (N - 1) ->
  status_fetch_returns threadId runId t (N - 1) run ->
  prop run "status" = JStr "completed" ->
  waitForRunComplete threadId runId t = (t ++ attempts threadId runId N, inr run)
  /\ fetches (attempts threadId runId N) = repeat (getRun_request threadId runId) N
  /\ fst (chat_send req_body t0)
     = (t ++ attempts threadId runId N) ++ [EvFetch (listMessages_request threadId 20)].
Proof.
  intros Hm Hne Hreach HN Hp Hr Hs.
  pose proof (waitForRunComplete_completed _ _ _ _ _ HN Hp Hr Hs) as Hw.
  split; [exact Hw |]. split; [apply fetches_attempts_N; lia |].
  rewrite (chat_send_valid _ _ _ Hm Hne).
  rewrite (send_try_poller_returns _ _ _ _ _ _ _ _ Hreach Hw).
  destruct (snd (listMessages threadId 20 _)) as [e | msgs]; [reflexivity |].
  destruct (extractLatestAssistantText msgs); reflexivity.
Qed.

Lemma run_failure_cases run :
  e_status (run_failure run) = None
  /\ (forall m, run_error_message run = JStr m -> m <> "" ->
                run_failure run = Error m)
  /\ (truthy (run_error_message run) = false ->
      run_failure run = Error (generic_run_message (prop run "status")))
  /\ (truthy (run_error_message run) = true ->
      stringifies (run_error_message run) = true ->
      run_failure run = Error (string_of (run_error_message run)))
  /\ (truthy (run_error_message run) = true ->
      stringifies (run_error_message run) = false ->
      run_failure run = TypeError_convert).
Proof.
  unfold run_failure, ToString.
  destruct (truthy (run_error_message run)) eqn:Ht;
    [destruct (stringifies (run_error_message run)) eqn:Hs |];
    (split; [reflexivity |]); (split; [| split; [| split]]);
    try discriminate; try reflexivity.
  - intros m Hm Hne. rewrite Hm. reflexivity.
  - intros m Hm Hne. rewrite Hm in Hs. discriminate Hs.
  - intros m Hm Hne. rewrite Hm in Ht.
    destruct (truthy_JStr m) as [_ Ht']. rewrite (Ht' Hne) in Ht. discriminate Ht.
Qed.

(** C4, amended.  When the N-th status fetch (after N - 1 pending ones)
    returns a run whose status is [failed], [cancelled] or [expired], the
    poller raises at once: exactly N status fetches, nothing after the
    last.  The failure carries no status.  It is an [Error] whose message
    is the run's [last_error.message] when that is a non-empty string, and
    the generic message naming the status when [last_error] or its message
    is falsy (absent, null, the empty string, ...).  A truthy message that
    is no string is converted: the [Error] then has its string form, and
    when it has none the TypeError of the conversion is raised in its
    place. *)
Theorem failed_run_raises threadId runId t N run :
  (1 <= N <= 40)%nat ->
  pending_for threadId runId t (N - 1) ->
  status_fetch_returns threadId runId t (N - 1) run ->
  is_failure_status (prop run "status") = true ->
  exists e,
    waitForRunComplete threadId runId t = (t ++ attempts threadId runId N, inl e)
    /\ fetches (attempts threadId runId N) = repeat (getRun_request threadId runId) N
    /\ e_status e = None
    /\ (forall m, run_error_message run = JStr m -> m <> "" -> e = Error m)
    /\ (truthy (run_error_message run) = false ->
        e = Error (generic_run_message (prop run "status")))
    /\ (truthy (run_error_message run) = true ->
        stringifies (run_error_message run) = true ->
        e = Error (string_of (run_error_message run)))
    /\ (truthy (run_error_message run) = true ->
        stringifies (run_error_message run) = false ->
        e = TypeError_convert).
Proof.
  intros HN Hp Hr Hs.
  exists (run_failure run).
  split; [apply (waitForRunComplete_failed _ _ _ _ _ HN Hp Hr Hs) |].
  split; [apply fetches_attempts_N; lia |].
  apply run_failure_cases.
Qed.

Lemma append_inj_l a b c : a +++ b = a +++ c -> b = c.
Proof.
  induction a as [| ch a IH]; simpl; intros E; [exact E |].
  injection E as E. exact (IH E).
Qed.

Lemma run_path_is_not_list_path base thread run limit :
  base +++ "/threads/" +++ thread +++ "/runs/" +++ run
  <> base +++ "/threads/" +++ thread +++ "/messages?limit=" +++ limit.
Proof.
  intros E. apply append_inj_l in E.
  apply (append_inj_l "/threads/") in E.
  apply append_inj_l in E. discriminate E.
Qed.

(** For one thread a status fetch and a message listing are different
    requests. *)
Lemma getRun_is_not_listMessages threadId runId limit :
  getRun_request threadId runId <> listMessages_request threadId limit.
Proof.
  intros E. apply (f_equal rq_url) in E.
  exact (run_path_is_not_list_path OPENAI_BASE _ _ _ E).
Qed.

(** C5.  Let a [/chat/send] request with a valid message reach the poller.
    If each of 40 status fetches returns a pending run (no terminal
    status), the poller performs exactly 40 status fetches and then raises
    the timeout failure; the handler answers 500 with that message and
    does nothing more: among all the requests it made for this client
    request there is no list-messages request. *)
Theorem no_terminal_status_times_out req_body m t0 threadId runId t :
  request_field req_body "message" = JStr m -> m <> "" ->
  reaches_poller (request_field req_body "threadId") (JStr m) t0 threadId runId t ->
  pending_for threadId runId t 40 ->
  waitForRunComplete threadId runId t
  = (t ++ concat (repeat (poll_round threadId runId) 40), inl timeout_error)
  /\ fetches (concat (repeat (poll_round threadId runId) 40))
     = repeat (getRun_request threadId runId) 40
  /\ chat_send req_body t0
     = (t ++ concat (repeat (poll_round threadId runId) 40),
        json_response 500 (error_body timeout_error))
  /\ exists pre,
       t = t0 ++ pre
       /\ forall limit,
            ~ In (listMessages_request threadId limit)
                 (fetches (pre ++ concat (repeat (poll_round threadId runId) 40))).
Proof.
  intros Hm Hne Hreach Hp.
  pose proof (waitForRunComplete_timeout _ _ _ Hp) as Hw.
  split; [exact Hw |]. split; [apply fetches_rounds |]. split.
  - rewrite (chat_send_valid _ _ _ Hm Hne).
    rewrite (send_try_poller_raises _ _ _ _ _ _ _ _ Hreach Hw). reflexivity.
  - destruct (reaches_poller_trace _ _ _ _ _ _ Hreach) as (pre & Et & Hpost).
    exists pre. split; [exact Et |]. intros limit Hin.
    rewrite fetches_app, fetches_rounds in Hin.
    apply in_app_or in Hin. destruct Hin as [Hin | Hin].
    + rewrite Forall_forall in Hpost. apply Hpost in Hin. discriminate Hin.
    + apply repeat_spec in Hin.
      exact (getRun_is_not_listMessages threadId runId limit (eq_sym Hin)).
Qed.

(** *** Claims on the handlers *)

(** What a completed [try] block of [/chat/send] went through. *)
Lemma send_try_inv threadId message t t' r :
  send_try threadId message t = (t', inr r) ->
  exists tid runId t3 t4 run msgs reply,
    reaches_poller threadId message t tid runId t3
    /\ waitForRunComplete tid runId t3 = (t4, inr run)
    /\ listMessages tid 20 t4 = (t', inr msgs)
    /\ extractLatestAssistantText msgs = inr reply
    /\ r = success_response tid reply.
Proof.
  unfold send_try. intros E.
  apply bind_inv_inr in E. destruct E as (t1 & tid & H1 & E).
  apply bind_inv_inr in E. destruct E as (t2 & a & H2 & E).
  apply bind_inv_inr in E. destruct E as (t3 & run & H3 & E).
  apply bind_inv_inr in E. destruct E as (t3' & runId & H4 & E).
  apply lift_inv_inr in H4. destruct H4 as [-> H4].
  apply bind_inv_inr in E. destruct E as (t4 & run' & H5 & E).
  apply bind_inv_inr in E. destruct E as (t5 & msgs & H6 & E).
  apply bind_inv_inr in E. destruct E as (t6 & reply & H7 & E).
  apply lift_inv_inr in H7. destruct H7 as [-> H7].
  inversion E; subst.
  exists tid, runId, t3, t4, run', msgs, reply.
  repeat split; auto. exists t1, t2, a, run. auto.
Qed.

(** A response with status 200 comes from a completed [try] block. *)
Lemma chat_send_200_inv req_body t :
  res_status (snd (chat_send req_body t)) = 200%Z ->
  exists t' r,
    send_try (request_field req_body "threadId")
             (request_field req_body "message") t = (t', inr r)
    /\ chat_send req_body t = (t', r).
Proof.
  unfold chat_send.
  destruct (negb (truthy (request_field req_body "message"))
            || negb (is_string (request_field req_body "message")));
    [simpl; discriminate |].
  pose proof (raises_ok_send_try (request_field req_body "threadId")
                (request_field req_body "message") t) as Hok.
  destruct (send_try _ _ t) as [t' [e | r]]; simpl.
  - intros E. exfalso. exact (status_or_not_200 e (Hok e eq_refl) E).
  - intros _. exists t', r. auto.
Qed.


Lemma extends_send_try threadId message : extends (send_try threadId message).
Proof.
  unfold send_try.
  apply extends_bind.
  { unfold thread_for. destruct (truthy threadId && is_string threadId).
    - apply extends_ret.
    - apply extends_bind; [extends_op | intros; apply extends_lift]. }
  intros tid.
  apply extends_bind; [extends_op | intros _].
  apply extends_bind; [extends_op | intros run].
  apply extends_bind; [apply extends_lift | intros runId].
  apply extends_bind; [apply extends_poll | intros _].
  apply extends_bind; [extends_op | intros msgs].
  apply extends_bind; [apply extends_lift | intros reply].
  apply extends_ret.
Qed.

Lemma chat_send_trace req_body m t :
  request_field req_body "message" = JStr m -> m <> "" ->
  fst (chat_send req_body t)
  = fst (send_try (request_field req_body "threadId") (JStr m) t).
Proof.
  intros Hm Hne. rewrite (chat_send_valid _ _ _ Hm Hne).
  destruct (send_try _ _ t) as [t' [e | r]]; reflexivity.
Qed.




(** C6.  Over a message list whose entries are messages and whose blocks
    are content blocks: extraction takes the first entry, in the given
    order, whose role is [assistant] and returns the nested value of the
    first block of that entry whose type is [text] and whose nested value
    is non-empty; it returns null when no entry is the assistant's, and
    when the first assistant entry has no such block.  The running
    example yields ["hello"].  A success response of [/chat/send] carries
    as [reply] the extraction from the listed messages, and the empty
    string when the extraction is null.  And so it answers: once the run
    is returned and the messages are listed, the handler answers 200 with
    the extracted text as [reply], and with the empty string as [reply]
    when the extraction gives none (null, as for a listing without an
    entry of the assistant). *)
Theorem extraction_selects_first_text :
  (forall messagesList pre m post bpre b bpost,
      entries messagesList = pre ++ m :: post ->
      Forall other_entry pre -> assistant_entry m ->
      blocks m = bpre ++ b :: bpost ->
      Forall skipped_block bpre -> reply_block b ->
      extractLatestAssistantText messagesList = inr (text_of b))
  /\ (forall messagesList,
        Forall other_entry (entries messagesList) ->
        extractLatestAssistantText messagesList = inr JNull)
  /\ (forall messagesList pre m post,
        entries messagesList = pre ++ m :: post ->
        Forall other_entry pre -> assistant_entry m ->
        Forall skipped_block (blocks m) ->
        extractLatestAssistantText messagesList = inr JNull)
  /\ extractLatestAssistantText
       (JObj [("data",
               JArr [JObj [("role", JStr "assistant");
                           ("content",
                            JArr [JObj [("type", JStr "text");
                                        ("text", JObj [("value", JStr "hello")])]])]])])
     = inr (JStr "hello")
  /\ (forall req_body t,
        res_status (snd (chat_send req_body t)) = 200%Z ->
        exists tid t4 msgs reply,
          snd (listMessages tid 20 t4) = inr msgs
          /\ extractLatestAssistantText msgs = inr reply
          /\ snd (chat_send req_body t) = success_response tid reply
          /\ (reply = JNull ->
              prop (res_body (snd (chat_send req_body t))) "reply" = JStr "")
          /\ (truthy reply = true ->
              prop (res_body (snd (chat_send req_body t))) "reply" = reply))
  /\ (forall req_body m t0 tid runId t t' run msgs,
        request_field req_body "message" = JStr m -> m <> "" ->
        reaches_poller (request_field req_body "threadId") (JStr m) t0 tid runId t ->
        waitForRunComplete tid runId t = (t', inr run) ->
        snd (listMessages tid 20 t') = inr msgs ->
        (forall reply,
            extractLatestAssistantText msgs = inr reply ->
            chat_send req_body t0
            = (t' ++ [EvFetch (listMessages_request tid 20)],
               json_response 200
                 (JObj [("threadId", tid);
                        ("reply", if truthy reply then reply else JStr "")])))
        /\ (Forall other_entry (entries msgs) ->
            chat_send req_body t0
            = (t' ++ [EvFetch (listMessages_request tid 20)],
               json_response 200
                 (JObj [("threadId", tid); ("reply", JStr "")])))).
Proof.
  split; [| split; [| split; [| split; [| split]]]].
  - intros messagesList pre m post bpre b bpost He Hpre Hm Hb Hbpre Hrb.
    rewrite (extract_first_assistant _ _ _ _ He Hpre Hm), Hb.
    rewrite (find_value_first _ _ _ _ (Forall_skipped _ Hbpre) (is_text_block_reply _ Hrb)).
    rewrite !opt_get_prop. fold (text_of b).
    destruct Hrb as [_ Hv]. unfold js_coalesce.
    destruct (text_of b); try reflexivity; discriminate Hv.
  - intros messagesList Hall. unfold extractLatestAssistantText.
    fold (entries messagesList).
    rewrite (find_value_none _ _ (Forall_other _ Hall)). reflexivity.
  - intros messagesList pre m post He Hpre Hm Hbs.
    rewrite (extract_first_assistant _ _ _ _ He Hpre Hm).
    rewrite (find_value_none _ _ (Forall_skipped _ Hbs)). reflexivity.
  - reflexivity.
  - intros req_body t H200.
    destruct (chat_send_200_inv _ _ H200) as (t' & r & Htry & Hsend).
    apply send_try_inv in Htry.
    destruct Htry as (tid & runId & t3 & t4 & run & msgs & reply & _ & _ & Hl & Hx & ->).
    exists tid, t4, msgs, reply. rewrite Hsend, Hl. simpl.
    repeat split; auto.
    + intros ->. reflexivity.
    + unfold js_or. intros ->. reflexivity.
  - intros req_body m t0 tid runId t t' run msgs Hm Hne Hreach Hw Hl.
    assert (Hreply : forall reply,
               extractLatestAssistantText msgs = inr reply ->
               chat_send req_body t0
               = (t' ++ [EvFetch (listMessages_request tid 20)],
                  json_response 200
                    (JObj [("threadId", tid);
                           ("reply", if truthy reply then reply else JStr "")]))).
    { intros reply Hx. rewrite (chat_send_valid _ _ _ Hm Hne).
      rewrite (send_try_poller_returns _ _ _ _ _ _ _ _ Hreach Hw), Hl, Hx.
      reflexivity. }
    split; [exact Hreply |].
    intros Hall. apply (Hreply JNull).
    unfold extractLatestAssistantText. fold (entries msgs).
    rewrite (find_value_none _ _ (Forall_other _ Hall)). reflexivity.
Qed.

(** C8, amended.  A failure raised in the [try] block of [/chat/start] is
    answered with status 500, whatever status it carries; one raised in
    the [try] block of [/chat/send] is answered with the status it carries
    when it carries one (other than 0), and with 500 otherwise.  In both
    routes the body is [{ error: e.message, details: e.data }].  A carried
    status is never in the success range. *)
Theorem failure_responses :
  (forall t t' e,
      start_try t = (t', inl e) ->
      chat_start t = (t', json_response 500 (error_body e))
      /\ carried_status_ok e)
  /\ (forall req_body m t t' e,
        request_field req_body "message" = JStr m -> m <> "" ->
        send_try (request_field req_body "threadId") (JStr m) t = (t', inl e) ->
        chat_send req_body t
        = (t', json_response (status_or e 500) (error_body e))
        /\ carried_status_ok e
        /\ (forall s, e_status e = Some s -> s <> 0%Z -> status_or e 500 = s)
        /\ (e_status e = None -> status_or e 500 = 500%Z)).
Proof.
  split.
  - intros t t' e H. split.
    + unfold chat_start. rewrite H. reflexivity.
    + apply (raises_ok_start_try t). rewrite H. reflexivity.
  - intros req_body m t t' e Hm Hne H. split; [| split; [| split]].
    + rewrite (chat_send_valid _ _ _ Hm Hne), H. reflexivity.
    + apply (raises_ok_send_try (request_field req_body "threadId") (JStr m) t).
      rewrite H. reflexivity.
    + intros s Hs Hz. unfold status_or. rewrite Hs.
      destruct (Z.eqb_spec s 0); [contradiction | reflexivity].
    + intros Hs. unfold status_or. rewrite Hs. reflexivity.
Qed.

(** *** Totality of the extraction *)

Lemma is_assistant_inv m : is_assistant m = inr true -> assistant_entry m.
Proof.
  unfold is_assistant, get, assistant_entry.
  destruct (nullish m); [discriminate |].
  intros E. injection E as E. apply strict_eq_str_true. exact E.
Qed.

Lemma is_text_block_inv b : is_text_block b = inr true -> reply_block b.
Proof.
  unfold is_text_block, get, reply_block, text_of.
  destruct (nullish b); [discriminate |]. rewrite opt_get_prop.
  destruct (strict_eq_str (prop b "type") "text") eqn:Et; [| discriminate].
  intros E. injection E as E. split; [apply strict_eq_str_true; exact Et | exact E].
Qed.

Lemma find_value_total p l :
  Forall (fun x => exists b, p x = inr b) l ->
  find_value p l = inr JUndefined
  \/ exists x, In x l /\ p x = inr true /\ find_value p l = inr x.
Proof.
  intros H. induction H as [| x l [b Hb] _ IH]; simpl; [left; reflexivity |].
  rewrite Hb. destruct b.
  - right. exists x. auto.
  - destruct IH as [IH | (y & Hin & Hy & IH)]; [left; exact IH |].
    right. exists y. auto.
Qed.

Lemma is_assistant_defined m : nullish m = false -> exists b, is_assistant m = inr b.
Proof. unfold is_assistant, get. intros ->. eexists. reflexivity. Qed.

Lemma is_text_block_defined b : nullish b = false -> exists r, is_text_block b = inr r.
Proof. unfold is_text_block, get. intros ->. eexists. reflexivity. Qed.

(** On values whose entries and blocks are not null or undefined the
    extraction returns, and returns null or the nested value of a reply
    block of an assistant entry. *)
Lemma extraction_defined messagesList :
  Forall (fun m => nullish m = false) (entries messagesList) ->
  (forall m, In m (entries messagesList) ->
             Forall (fun b => nullish b = false) (blocks m)) ->
  exists r,
    extractLatestAssistantText messagesList = inr r
    /\ (r = JNull
        \/ (truthy r = true
            /\ exists m b, In m (entries messagesList) /\ assistant_entry m
                           /\ In b (blocks m) /\ reply_block b
                           /\ r = text_of b)).
Proof.
  intros He Hb. unfold extractLatestAssistantText.
  fold (entries messagesList).
  destruct (find_value_total is_assistant (entries messagesList)) as [E | (m & Hin & Hm & E)].
  { revert He. apply Forall_impl. exact is_assistant_defined. }
  - rewrite E. simpl. exists JNull. auto.
  - rewrite E. apply is_assistant_inv in Hm.
    rewrite (assistant_entry_truthy _ Hm). simpl negb. cbv iota.
    fold (blocks m).
    destruct (find_value_total is_text_block (blocks m)) as [E' | (b & Hinb & Hrb & E')].
    { generalize (Hb m Hin). apply Forall_impl. exact is_text_block_defined. }
    + rewrite E'. exists JNull. auto.
    + rewrite E'. apply is_text_block_inv in Hrb.
      rewrite !opt_get_prop. fold (text_of b). exists (text_of b).
      destruct Hrb as [Ht Hv].
      assert (Hc : js_coalesce (text_of b) JNull = text_of b)
        by (unfold js_coalesce; destruct (text_of b); try reflexivity; discriminate Hv).
      rewrite Hc. split; [reflexivity |]. right. split; [exact Hv |].
      exists m, b. repeat split; auto.
Qed.

Lemma block_without_text_skipped b :
  nullish b = false -> nullish (prop b "text") = true -> skipped_block b.
Proof.
  intros Hn Ht. split; [exact Hn |]. intros [_ Hv]. unfold text_of in Hv.
  destruct (prop b "text"); discriminate.
Qed.

(** C9, amended.  On every value whose entries are not null or undefined
    and whose entries' content blocks are not null or undefined, the
    extraction returns without throwing, and what it returns is null or
    the non-empty nested value of a text block of an assistant entry (a
    string when upstream sent a string there).  In particular it returns
    null, without throwing, for a null or undefined list, for a [data]
    that is not an array, for a first assistant entry whose [content] is
    not an array, and for one whose blocks have no [text] object. *)
Theorem extraction_total_on_objects :
  (forall messagesList,
      Forall (fun m => nullish m = false) (entries messagesList) ->
      (forall m, In m (entries messagesList) ->
                 Forall (fun b => nullish b = false) (blocks m)) ->
      exists r,
        extractLatestAssistantText messagesList = inr r
        /\ (r = JNull
            \/ (truthy r = true
                /\ exists m b, In m (entries messagesList) /\ assistant_entry m
                               /\ In b (blocks m) /\ reply_block b
                               /\ r = text_of b)))
  /\ (forall messagesList,
        nullish messagesList = true ->
        extractLatestAssistantText messagesList = inr JNull)
  /\ (forall messagesList,
        (forall l, opt_get messagesList "data" <> JArr l) ->
        extractLatestAssistantText messagesList = inr JNull)
  /\ (forall messagesList pre m post,
        entries messagesList = pre ++ m :: post ->
        Forall other_entry pre -> assistant_entry m ->
        (forall l, prop m "content" <> JArr l) ->
        extractLatestAssistantText messagesList = inr JNull)
  /\ (forall messagesList pre m post,
        entries messagesList = pre ++ m :: post ->
        Forall other_entry pre -> assistant_entry m ->
        Forall (fun b => nullish b = false /\ nullish (prop b "text") = true)
               (blocks m) ->
        extractLatestAssistantText messagesList = inr JNull).
Proof.
  split; [exact extraction_defined |]. split; [| split; [| split]].
  - intros messagesList Hn. destruct messagesList; try discriminate Hn; reflexivity.
  - intros messagesList Hd. unfold extractLatestAssistantText.
    destruct (opt_get messagesList "data") as [| | | | | l |] eqn:E;
      try reflexivity.
    exfalso. exact (Hd l eq_refl).
  - intros messagesList pre m post He Hpre Hm Hc.
    rewrite (extract_first_assistant _ _ _ _ He Hpre Hm). unfold blocks.
    destruct (prop m "content") as [| | | | | l |] eqn:E; try reflexivity.
    exfalso. exact (Hc l eq_refl).
  - intros messagesList pre m post He Hpre Hm Hb.
    rewrite (extract_first_assistant _ _ _ _ He Hpre Hm).
    rewrite (find_value_none is_text_block (blocks m)); [reflexivity |].
    apply Forall_skipped. revert Hb. apply Forall_impl.
    intros b [Hn Ht]. exact (block_without_text_skipped b Hn Ht).
Qed.

End Properties.

(** ** Further properties of the code *)

Section FurtherProperties.

Context {rt : Runtime}.

(** *** The upstream client on bodies that are no JSON *)

Lemma payload_error_message_fallback text :
  payload_error_message (fallback_payload text) = JUndefined.
Proof. unfold fallback_payload. destruct (text =? ""); reflexivity. Qed.

(** X1.  A response whose body is empty or is not JSON never makes the
    client fail with a parse error.  The payload is then [{}] for an empty
    body and [{ raw: text }] otherwise; with a success status the client
    returns it, with any other status it raises the failure with the generic
    message naming the status, that status, and that payload. *)
Theorem openAI_body_without_json path method body beta t status text :
  fetch t (openAI_request path method body beta) = Resolved status text ->
  text = "" \/ JSON_parse text = None ->
  openAI path method body beta t
  = (t ++ [EvFetch (openAI_request path method body beta)],
     if res_ok status then inr (fallback_payload text)
     else inl {| e_message := generic_failure_message status;
                 e_status := Some status;
                 e_data := fallback_payload text |}).
Proof.
  intros Hf Hbody. unfold openAI. rewrite Hf.
  assert (Hp : parse_payload text = fallback_payload text).
  { unfold parse_payload, fallback_payload.
    destruct Hbody as [-> | Hnone]; [reflexivity |].
    rewrite Hnone. reflexivity. }
  rewrite Hp. destruct (res_ok status); simpl; [reflexivity |].
  fold (payload_error_message (fallback_payload text)).
  rewrite payload_error_message_fallback. reflexivity.
Qed.

(** *** Invariants of the requests *)

Lemma sends_only_ret P {A} (a : A) : sends_only P (ret a).
Proof. intros t. exists []. simpl. rewrite app_nil_r. auto. Qed.

Lemma sends_only_throw P {A} e : sends_only P (@throw A e).
Proof. intros t. exists []. simpl. rewrite app_nil_r. auto. Qed.

Lemma sends_only_lift P {A} (r : exn + A) : sends_only P (lift r).
Proof. intros t. exists []. simpl. rewrite app_nil_r. auto. Qed.

Lemma sends_only_sleep P ms : sends_only P (sleep ms).
Proof. intros t. exists [EvSleep ms]. simpl. auto. Qed.

Lemma sends_only_bind P {A B} (c : M A) (k : A -> M B) :
  sends_only P c -> (forall a, sends_only P (k a)) -> sends_only P (bind c k).
Proof.
  intros Hc Hk t. unfold bind. destruct (Hc t) as (n1 & E1 & F1).
  destruct (c t) as [t1 [e | a]]; simpl in E1; subst t1.
  - exists n1. auto.
  - destruct (Hk a (t ++ n1)) as (n2 & E2 & F2). exists (n1 ++ n2).
    rewrite E2, app_assoc, fetches_app. split; [reflexivity |].
    apply Forall_app. auto.
Qed.

Lemma sends_only_openAI (P : request -> Prop) path method body beta :
  P (openAI_request path method body beta) ->
  sends_only P (openAI path method body beta).
Proof.
  intros HP t. exists [EvFetch (openAI_request path method body beta)].
  rewrite openAI_trace. simpl. auto.
Qed.

(** A path is built from the string form of an id, when it has one. *)
Lemma sends_only_with_string P {A} v (k : string -> M A) :
  (stringifies v = true -> sends_only P (k (string_of v))) ->
  sends_only P (bind (lift (ToString v)) k).
Proof.
  intros H t. destruct (stringifies v) eqn:Hs.
  - rewrite (with_string_ok _ _ _ Hs). apply H. reflexivity.
  - rewrite (with_string_throws _ _ _ Hs). exists []. simpl.
    rewrite app_nil_r. auto.
Qed.

Lemma sends_only_run_failure P run status :
  sends_only P (throw_run_failure run status).
Proof.
  intros t. exists []. destruct (throw_run_failure_plain run status t) as (e & E & _).
  rewrite E, app_nil_r. simpl. auto.
Qed.

Ltac sends_only_op HP :=
  first [ apply sends_only_openAI; apply HP
        | unfold addUserMessage, createRun, getRun, listMessages;
          repeat (apply sends_only_with_string; intros ?);
          apply sends_only_openAI; apply HP ].

Lemma sends_only_poll P n threadId runId :
  P (getRun_request threadId runId) -> sends_only P (poll n threadId runId).
Proof.
  intros HP. induction n as [| n IH]; simpl.
  - apply sends_only_throw.
  - apply sends_only_bind; [sends_only_op HP | intros run].
    apply sends_only_bind; [apply sends_only_lift | intros status].
    destruct (strict_eq_str status "completed"); [apply sends_only_ret |].
    destruct (is_failure_status status); [apply sends_only_run_failure |].
    apply sends_only_bind; [apply sends_only_sleep | intros _; exact IH].
Qed.

(** The part of the [try] block of [/chat/send] that follows line 126
    requests only paths under the thread it was given. *)
Lemma sends_only_after_thread P threadId message :
  exists k, send_try threadId message = bind (thread_for threadId) k
            /\ forall tid,
                 (forall path method body,
                     P (openAI_request ("/threads/" +++ string_of tid +++ path)
                          method body true)) ->
                 sends_only P (k tid).
Proof.
  eexists. split; [reflexivity |]. cbv beta. intros tid HP.
  apply sends_only_bind; [sends_only_op HP | intros _].
  apply sends_only_bind; [sends_only_op HP | intros run].
  apply sends_only_bind; [apply sends_only_lift | intros runId].
  apply sends_only_bind.
  { apply sends_only_poll. unfold getRun_request.
    apply (HP ("/runs/" +++ string_of runId)). }
  intros _.
  apply sends_only_bind; [sends_only_op HP | intros msgs].
  apply sends_only_bind; [apply sends_only_lift | intros reply].
  apply sends_only_ret.
Qed.

Lemma prefix_append a b : String.prefix a (a +++ b) = true.
Proof.
  induction a as [| ch a IH]; simpl; [destruct b; reflexivity |].
  destruct (Ascii.ascii_dec ch ch) as [_ | Hne]; [exact IH | contradiction].
Qed.

Lemma append_assoc_relay a b c : (a +++ b) +++ c = a +++ b +++ c.
Proof. induction a as [| ch a IH]; simpl; [reflexivity | rewrite IH; reflexivity]. Qed.

Lemma openAI_request_is_relay_request rest method body :
  relay_request (openAI_request ("/threads" +++ rest) method body true).
Proof.
  unfold relay_request.
  split.
  { unfold openAI_request, rq_url. rewrite <- append_assoc_relay.
    apply prefix_append. }
  unfold openAI_request, openAIHeaders. simpl.
  split; [left; reflexivity |].
  destruct body as [b |]; simpl.
  - split; [auto |]. split; [discriminate | auto].
  - split; [auto |].
    split; [| intros H; contradiction H; reflexivity].
    intros [H | [H | []]]; discriminate H.
Qed.

Lemma sends_only_thread_for P threadId :
  P createThread_request -> sends_only P (thread_for threadId).
Proof.
  intros HP. unfold thread_for.
  destruct (truthy threadId && is_string threadId); [apply sends_only_ret |].
  apply sends_only_bind; [apply sends_only_openAI; exact HP |].
  intros thread. apply sends_only_lift.
Qed.

Lemma sends_only_send_try P threadId message :
  (forall rest method body,
      P (openAI_request ("/threads" +++ rest) method body true)) ->
  sends_only P (send_try threadId message).
Proof.
  intros HP. unfold send_try.
  apply sends_only_bind; [apply sends_only_thread_for; apply HP | intros tid].
  apply sends_only_bind; [sends_only_op HP | intros _].
  apply sends_only_bind; [sends_only_op HP | intros run].
  apply sends_only_bind; [apply sends_only_lift | intros runId].
  apply sends_only_bind; [apply sends_only_poll; apply HP | intros _].
  apply sends_only_bind; [sends_only_op HP | intros msgs].
  apply sends_only_bind; [apply sends_only_lift | intros reply].
  apply sends_only_ret.
Qed.

Lemma chat_send_trace_cases req_body t :
  fst (chat_send req_body t) = t
  \/ fst (chat_send req_body t)
     = fst (send_try (request_field req_body "threadId")
                     (request_field req_body "message") t).
Proof.
  unfold chat_send.
  destruct (negb (truthy (request_field req_body "message"))
            || negb (is_string (request_field req_body "message")));
    [left; reflexivity | right].
  destruct (send_try _ _ t) as [t' [e | r]]; reflexivity.
Qed.

Lemma chat_start_trace t :
  fst (chat_start t) = t ++ [EvFetch createThread_request].
Proof.
  unfold chat_start, start_try. unfold bind at 1. unfold createThread at 1.
  rewrite openAI_run. fold createThread createThread_request.
  destruct (snd (createThread t)) as [e | thread]; [reflexivity |].
  unfold bind, lift, ret. destruct (get thread "id"); reflexivity.
Qed.

(** X2.  Whatever the client sends and whatever the upstream answers, every
    request the two routes make is built the same way: the URL string
    handed to [fetch] begins with the base URL followed by [/threads], and
    the request carries the bearer token of the configuration and the beta
    header, and has the JSON content type exactly when it has a body.  This
    is a statement on the URL string: a thread or run id is put into it as
    it is, so nothing is said on the path the string resolves to. *)
Theorem routes_send_relay_requests :
  (forall req_body t,
      exists new, fst (chat_send req_body t) = t ++ new
                  /\ Forall relay_request (fetches new))
  /\ (forall t,
        exists new, fst (chat_start t) = t ++ new
                    /\ Forall relay_request (fetches new)).
Proof.
  split.
  - intros req_body t. destruct (chat_send_trace_cases req_body t) as [E | E].
    + exists []. rewrite E, app_nil_r. auto.
    + rewrite E. apply sends_only_send_try.
      intros. apply openAI_request_is_relay_request.
  - intros t. exists [EvFetch createThread_request]. rewrite chat_start_trace.
    split; [reflexivity |]. simpl. constructor; [| constructor].
    apply (openAI_request_is_relay_request "").
Qed.

(** *** A bound on the work of one request *)

Lemma sleeps_app t1 t2 : sleeps (t1 ++ t2) = sleeps t1 ++ sleeps t2.
Proof.
  induction t1 as [| [rq | ms] t1 IH]; simpl; [reflexivity | exact IH | f_equal; exact IH].
Qed.

Lemma costs_weaken {A} (c : M A) nf ns nf' ns' :
  (nf <= nf')%nat -> (ns <= ns')%nat ->
  costs_at_most nf ns c -> costs_at_most nf' ns' c.
Proof.
  intros Hf Hs Hc t. destruct (Hc t) as (new & E & F & S & W).
  exists new. repeat split; auto; lia.
Qed.

Lemma costs_pure {A} (c : M A) :
  (forall t, fst (c t) = t) -> costs_at_most 0 0 c.
Proof.
  intros H t. exists []. rewrite H, app_nil_r. simpl. auto.
Qed.

Lemma costs_bind {A B} (c : M A) (k : A -> M B) nf ns nf' ns' :
  costs_at_most nf ns c -> (forall a, costs_at_most nf' ns' (k a)) ->
  costs_at_most (nf + nf') (ns + ns') (bind c k).
Proof.
  intros Hc Hk t. unfold bind. destruct (Hc t) as (n1 & E1 & F1 & S1 & W1).
  destruct (c t) as [t1 [e | a]]; simpl in E1; subst t1.
  - exists n1. repeat split; auto; lia.
  - destruct (Hk a (t ++ n1)) as (n2 & E2 & F2 & S2 & W2). exists (n1 ++ n2).
    rewrite E2, app_assoc, fetches_app, sleeps_app, !length_app.
    repeat split; try lia. apply Forall_app. auto.
Qed.

Lemma costs_openAI path method body beta :
  costs_at_most 1 0 (openAI path method body beta).
Proof.
  intros t. exists [EvFetch (openAI_request path method body beta)].
  rewrite openAI_trace. simpl. auto.
Qed.

Lemma costs_sleep : costs_at_most 0 1 (sleep 400).
Proof. intros t. exists [EvSleep 400]. simpl. auto. Qed.

Lemma costs_with_string {A} v (k : string -> M A) nf ns :
  (forall s, costs_at_most nf ns (k s)) ->
  costs_at_most nf ns (bind (lift (ToString v)) k).
Proof.
  intros H. apply (costs_bind _ _ 0 0 nf ns); [| exact H].
  apply costs_pure. reflexivity.
Qed.

Lemma costs_run_failure run status :
  costs_at_most 0 0 (throw_run_failure run status).
Proof.
  apply costs_pure. intros t.
  destruct (throw_run_failure_plain run status t) as (e & E & _).
  rewrite E. reflexivity.
Qed.

Ltac costs_op :=
  first [ apply costs_openAI
        | unfold addUserMessage, createRun, getRun, listMessages;
          repeat (apply costs_with_string; intros ?);
          apply costs_openAI ].

Lemma costs_poll n threadId runId : costs_at_most n n (poll n threadId runId).
Proof.
  induction n as [| n IH]; simpl.
  - apply costs_pure. reflexivity.
  - apply (costs_bind _ _ 1 0 n (S n)); [costs_op | intros run].
    apply (costs_bind _ _ 0 0 n (S n)); [apply costs_pure; reflexivity | intros status].
    destruct (strict_eq_str status "completed");
      [apply (costs_weaken _ 0 0); try lia; apply costs_pure; reflexivity |].
    destruct (is_failure_status status);
      [apply (costs_weaken _ 0 0); try lia; apply costs_run_failure |].
    apply (costs_bind _ _ 0 1 n n); [apply costs_sleep | intros _; exact IH].
Qed.

Lemma costs_thread_for threadId : costs_at_most 1 0 (thread_for threadId).
Proof.
  unfold thread_for. destruct (truthy threadId && is_string threadId).
  - apply (costs_weaken _ 0 0); try lia. apply costs_pure. reflexivity.
  - apply (costs_bind _ _ 1 0 0 0); [costs_op | intros thread].
    apply costs_pure. reflexivity.
Qed.

Lemma costs_send_try threadId message :
  costs_at_most 44 40 (send_try threadId message).
Proof.
  unfold send_try.
  apply (costs_bind _ _ 1 0 43 40); [apply costs_thread_for | intros tid].
  apply (costs_bind _ _ 1 0 42 40); [costs_op | intros _].
  apply (costs_bind _ _ 1 0 41 40); [costs_op | intros run].
  apply (costs_bind _ _ 0 0 41 40); [apply costs_pure; reflexivity | intros runId].
  apply (costs_bind _ _ 40 40 1 0); [apply costs_poll | intros _].
  apply (costs_bind _ _ 1 0 0 0); [costs_op | intros msgs].
  apply (costs_bind _ _ 0 0 0 0); [apply costs_pure; reflexivity | intros reply].
  apply costs_pure. reflexivity.
Qed.

Lemma total_wait_bound (l : list Z) n :
  Forall (fun ms => ms = 400%Z) l -> (length l <= n)%nat ->
  (fold_right Z.add 0 l <= 400 * Z.of_nat n)%Z.
Proof.
  intros H. revert n. induction H as [| ms l Hms _ IH]; intros n Hn.
  - cbn [fold_right]. lia.
  - cbn [fold_right length] in *. destruct n as [| n]; [lia |].
    apply le_S_n in Hn. specialize (IH n Hn).
    rewrite Nat2Z.inj_succ, Hms. lia.
Qed.

(** X3.  Whatever the client sends and whatever the upstream answers, one
    [/chat/send] request makes at most 44 upstream requests and at most 40
    waits, each of 400 ms: it is answered after at most 16 seconds of
    waiting of its own. *)
Theorem chat_send_work_is_bounded req_body t :
  exists new,
    fst (chat_send req_body t) = t ++ new
    /\ (length (fetches new) <= 44)%nat
    /\ (length (sleeps new) <= 40)%nat
    /\ Forall (fun ms => ms = 400%Z) (sleeps new)
    /\ (total_wait new <= 16000)%Z.
Proof.
  assert (H : exists new,
             fst (chat_send req_body t) = t ++ new
             /\ (length (fetches new) <= 44)%nat
             /\ (length (sleeps new) <= 40)%nat
             /\ Forall (fun ms => ms = 400%Z) (sleeps new)).
  { destruct (chat_send_trace_cases req_body t) as [E | E].
    - exists []. rewrite E, app_nil_r. simpl. repeat split; auto; lia.
    - rewrite E. apply costs_send_try. }
  destruct H as (new & E & F & S & W). exists new.
  repeat split; auto. unfold total_wait.
  pose proof (total_wait_bound _ 40 W S). lia.
Qed.

(** *** What a returning poller has seen *)

Lemma attempts_succ threadId runId N :
  (1 <= N)%nat ->
  poll_round threadId runId ++ attempts threadId runId N
  = attempts threadId runId (S N).
Proof.
  intros HN. unfold attempts. destruct N as [| k]; [lia |].
  simpl. rewrite Nat.sub_0_r. reflexivity.
Qed.

Lemma poll_inv n : forall threadId runId t t' run,
  poll n threadId runId t = (t', inr run) ->
  prop run "status" = JStr "completed"
  /\ exists N, (1 <= N <= n)%nat
               /\ t' = t ++ attempts threadId runId N
               /\ pending_for threadId runId t (N - 1)
               /\ status_fetch_returns threadId runId t (N - 1) run.
Proof.
  induction n as [| n IH]; intros threadId runId t t' run E; [discriminate E |].
  simpl in E. apply bind_inv_inr in E. destruct E as (t1 & r1 & Hg & E).
  assert (Hr1 : snd (getRun threadId runId t) = inr r1) by (rewrite Hg; reflexivity).
  rewrite (getRun_run _ _ _ _ Hr1) in Hg. injection Hg as Et1. subst t1.
  apply bind_inv_inr in E. destruct E as (t2 & status & Hl & E).
  apply lift_inv_inr in Hl. destruct Hl as [-> Hst].
  unfold get in Hst. destruct (nullish r1) eqn:Hn; [discriminate |].
  injection Hst as <-.
  destruct (strict_eq_str (prop r1 "status") "completed") eqn:Hc.
  - injection E as <- <-. split; [apply strict_eq_str_true; exact Hc |].
    exists 1%nat. repeat split; try lia.
    + intros j Hj. simpl in Hj. lia.
    + exact Hr1.
  - destruct (is_failure_status (prop r1 "status")) eqn:Hf.
    { match type of E with
      | throw_run_failure ?r ?st ?tr = _ =>
          destruct (throw_run_failure_plain r st tr) as (e0 & E0 & _)
      end.
      rewrite E0 in E. discriminate E. }
    apply bind_inv_inr in E. destruct E as (t3 & u & Hs & E).
    unfold sleep in Hs. injection Hs as <- _.
    rewrite <- app_assoc in E. change ([EvFetch (getRun_request threadId runId)]
      ++ [EvSleep 400]) with (poll_round threadId runId) in E.
    apply IH in E. destruct E as (Hdone & N & HN & Et & Hp & Hr).
    split; [exact Hdone |]. exists (S N).
    assert (HN1 : (S N - 1 = S (N - 1))%nat) by lia.
    rewrite HN1. repeat split; try lia.
    + rewrite Et, <- app_assoc, attempts_succ by lia. reflexivity.
    + intros j Hj. destruct j as [| j].
      * exists r1. split; [exact Hr1 |]. unfold pending. rewrite Hn, Hc, Hf. reflexivity.
      * destruct (Hp j) as (r & Hrj & Hpj); [lia |]. exists r. split; [exact Hrj | exact Hpj].
    + exact Hr.
Qed.

(** X4.  Whatever the upstream does, a run that [waitForRunComplete]
    returns has status [completed]; it is the run of the N-th status fetch
    for some N from 1 to 40, the N - 1 fetches before it returned pending
    runs, and the poller did nothing but those N status fetches and the
    waits between them. *)
Theorem waitForRunComplete_returns_completed threadId runId t t' run :
  waitForRunComplete threadId runId t = (t', inr run) ->
  prop run "status" = JStr "completed"
  /\ exists N, (1 <= N <= 40)%nat
               /\ t' = t ++ attempts threadId runId N
               /\ fetches (attempts threadId runId N)
                  = repeat (getRun_request threadId runId) N
               /\ pending_for threadId runId t (N - 1)
               /\ status_fetch_returns threadId runId t (N - 1) run.
Proof.
  intros E. apply poll_inv in E. destruct E as (Hs & N & HN & Et & Hp & Hr).
  split; [exact Hs |]. exists N. repeat split; auto; try lia.
  apply fetches_attempts_N. lia.
Qed.

(** *** The requests of a successful [/chat/send] *)

Lemma reaches_poller_events threadId message t0 tid runId t :
  reaches_poller threadId message t0 tid runId t ->
  exists pre,
    (pre = [] /\ threadId = tid /\ truthy threadId && is_string threadId = true
     \/ pre = [EvFetch createThread_request]
        /\ truthy threadId && is_string threadId = false)
    /\ t = t0 ++ pre ++ [EvFetch (addUserMessage_request tid message);
                         EvFetch (createRun_request tid)].
Proof.
  intros (t1 & t2 & a & run & H1 & H2 & H3 & H4).
  apply addUserMessage_returns in H2. destruct H2 as [_ E2].
  apply createRun_returns in H3. rename H3 into E3.
  unfold thread_for in H1.
  destruct (truthy threadId && is_string threadId) eqn:Hc.
  - injection H1 as <- <-. exists []. split; [left; auto |].
    subst t t2. rewrite <- app_assoc. reflexivity.
  - apply bind_inv_inr in H1. destruct H1 as (t1' & thread & Hcr & Hl).
    apply lift_inv_inr in Hl. destruct Hl as [-> _].
    unfold createThread in Hcr. rewrite openAI_run in Hcr. injection Hcr as E1 _.
    fold createThread_request in E1.
    exists [EvFetch createThread_request]. split; [right; auto |].
    subst. rewrite <- !app_assoc. reflexivity.
Qed.

(** X5.  Every [/chat/send] request that is answered with status 200 made
    its upstream requests in this order and made no other: the thread
    creation if and only if the body carried no non-empty string
    [threadId]; the message append; the run creation; N status fetches for
    some N from 1 to 40, with a wait of 400 ms between two of them; the
    message listing with limit 20. *)
Theorem successful_send_requests req_body t :
  res_status (snd (chat_send req_body t)) = 200%Z ->
  exists m tid runId N pre,
    request_field req_body "message" = JStr m /\ m <> ""
    /\ (pre = [] /\ request_field req_body "threadId" = tid
        /\ truthy tid && is_string tid = true
        \/ pre = [EvFetch createThread_request]
           /\ truthy (request_field req_body "threadId")
              && is_string (request_field req_body "threadId") = false)
    /\ (1 <= N <= 40)%nat
    /\ fst (chat_send req_body t)
       = t ++ pre
           ++ [EvFetch (addUserMessage_request tid (JStr m));
               EvFetch (createRun_request tid)]
           ++ attempts tid runId N
           ++ [EvFetch (listMessages_request tid 20)].
Proof.
  intros H200.
  destruct (chat_send_200_inv _ _ H200) as (t' & r & Htry & Hsend).
  assert (Hvalid : exists m, request_field req_body "message" = JStr m /\ m <> "").
  { destruct (is_string (request_field req_body "message")) eqn:Hs.
    - destruct (request_field req_body "message") as [| | b | n | s | l | f] eqn:Em;
        try discriminate Hs.
      exists s. split; [reflexivity |]. intros ->.
      rewrite (chat_send_rejects req_body t) in H200; [discriminate H200 |].
      left. rewrite Em. reflexivity.
    - rewrite (chat_send_rejects req_body t) in H200; [discriminate H200 |].
      right. exact Hs. }
  destruct Hvalid as (m & Hm & Hne). rewrite Hm in Htry.
  apply send_try_inv in Htry.
  destruct Htry as (tid & runId & t3 & t4 & run & msgs & reply & Hreach & Hw & Hl & _ & _).
  apply poll_inv in Hw.
  destruct Hw as (_ & N & HN & Et4 & _).
  destruct (reaches_poller_events _ _ _ _ _ _ Hreach) as (pre & Hpre & Et3).
  apply listMessages_returns in Hl. rename Hl into Et'.
  exists m, tid, runId, N, pre. repeat split; auto; try lia.
  - destruct Hpre as [(-> & <- & Hc) | (-> & Hc)]; [left | right]; auto.
  - rewrite Hsend. simpl. subst t' t4 t3. rewrite <- !app_assoc. reflexivity.
Qed.

(** *** The thread a [/chat/send] request works on *)

Lemma thread_path_is_not_threads tid path method body :
  openAI_request ("/threads/" +++ string_of tid +++ path) method body true
  <> createThread_request.
Proof.
  intros E. apply (f_equal rq_url) in E.
  unfold createThread_request, openAI_request, rq_url in E.
  assert (E' : OPENAI_BASE +++ "/threads" +++ "/" +++ string_of tid +++ path
               = OPENAI_BASE +++ "/threads" +++ "") by exact E.
  do 2 apply append_inj_l in E'. discriminate E'.
Qed.

Lemma thread_for_given s t :
  s <> "" -> thread_for (JStr s) t = (t, inr (JStr s)).
Proof.
  intros Hne. unfold thread_for.
  destruct (truthy_JStr s) as [_ Ht]. rewrite (Ht Hne). reflexivity.
Qed.

Lemma thread_for_creates threadId t :
  truthy threadId && is_string threadId = false ->
  thread_for threadId t
  = (t ++ [EvFetch createThread_request],
     match snd (createThread t) with
     | inl e => inl e
     | inr thread => get thread "id"
     end).
Proof.
  intros Hc. unfold thread_for. rewrite Hc.
  unfold bind. unfold createThread at 1. rewrite openAI_run.
  fold createThread. fold createThread_request.
  destruct (snd (createThread t)); reflexivity.
Qed.

Lemma send_try_after_thread (P : request -> Prop) threadId message t t1 tid :
  thread_for threadId t = (t1, inr tid) ->
  stringifies tid = true ->
  (forall path method body,
      P (openAI_request ("/threads/" +++ string_of tid +++ path) method body true)) ->
  exists rest,
    fst (send_try threadId message t)
    = t1 ++ EvFetch (addUserMessage_request tid message) :: rest
    /\ Forall P (fetches rest).
Proof.
  intros Ht Hs HP. unfold send_try. rewrite (bind_inr _ _ _ _ _ Ht).
  match goal with
  | |- context [bind (addUserMessage tid message) ?k] =>
      assert (Hk : forall a, sends_only P (k a))
  end.
  { intros _.
    apply sends_only_bind; [sends_only_op HP | intros run].
    apply sends_only_bind; [apply sends_only_lift | intros runId].
    apply sends_only_bind.
    { apply sends_only_poll. unfold getRun_request.
      apply (HP ("/runs/" +++ string_of runId)). }
    intros _.
    apply sends_only_bind; [sends_only_op HP | intros msgs].
    apply sends_only_bind; [apply sends_only_lift | intros reply].
    apply sends_only_ret. }
  unfold bind at 1. rewrite (addUserMessage_run _ _ _ Hs).
  match goal with
  | |- context [snd ?x] => destruct (snd x) as [e | a]
  end.
  - exists []. simpl. auto.
  - match goal with
    | |- context [fst (?c ?tr)] => destruct (Hk a tr) as (new & Hnew & HF)
    end.
    exists new. rewrite Hnew, <- !app_assoc. auto.
Qed.

(** X6.  A [/chat/send] request with a valid message and a [threadId] that
    is a non-empty string works on that thread: its first upstream request
    appends the message to it, it never requests a thread creation, and a
    200 response carries the same [threadId]. *)
Theorem send_with_thread_reuses_it req_body m s t :
  request_field req_body "message" = JStr m -> m <> "" ->
  request_field req_body "threadId" = JStr s -> s <> "" ->
  exists rest,
    fst (chat_send req_body t)
    = t ++ EvFetch (addUserMessage_request (JStr s) (JStr m)) :: rest
    /\ ~ In createThread_request (fetches rest)
    /\ (res_status (snd (chat_send req_body t)) = 200%Z ->
        prop (res_body (snd (chat_send req_body t))) "threadId" = JStr s).
Proof.
  intros Hm Hne Hs Hse.
  rewrite (chat_send_trace _ _ _ Hm Hne), Hs.
  destruct (send_try_after_thread (fun rq => rq <> createThread_request)
              (JStr s) (JStr m) t t (JStr s) (thread_for_given s t Hse) eq_refl)
    as (rest & E & HF).
  { intros. apply thread_path_is_not_threads. }
  exists rest. split; [exact E |]. split.
  - intros Hin. rewrite Forall_forall in HF. exact (HF _ Hin eq_refl).
  - intros H200. destruct (chat_send_200_inv _ _ H200) as (t' & r & Htry & Hsend).
    apply send_try_inv in Htry.
    destruct Htry as (tid & runId & t3 & t4 & run & msgs & reply & Hreach & _ & _ & _ & ->).
    destruct Hreach as (t1 & t2 & a & run0 & Hth & _).
    rewrite Hs, (thread_for_given s t Hse) in Hth. injection Hth as _ <-.
    rewrite Hsend. reflexivity.
Qed.

(** X7.  A [threadId] that is the empty string counts as no thread: the
    first upstream request is then the thread creation, and a 200 response
    carries the id of the created thread. *)
Theorem send_with_empty_thread_creates_one req_body m t :
  request_field req_body "message" = JStr m -> m <> "" ->
  request_field req_body "threadId" = JStr "" ->
  (exists rest,
     fst (chat_send req_body t) = t ++ EvFetch createThread_request :: rest)
  /\ (res_status (snd (chat_send req_body t)) = 200%Z ->
      exists thread tid,
        snd (createThread t) = inr thread
        /\ get thread "id" = inr tid
        /\ prop (res_body (snd (chat_send req_body t))) "threadId" = tid).
Proof.
  intros Hm Hne Hs.
  assert (Ht : thread_for (JStr "") t
               = (t ++ [EvFetch createThread_request],
                  match snd (createThread t) with
                  | inl e => inl e
                  | inr thread => get thread "id"
                  end))
    by (apply thread_for_creates; reflexivity).
  split.
  - rewrite (chat_send_trace _ _ _ Hm Hne), Hs.
    destruct (sends_only_after_thread (fun _ => True) (JStr "") (JStr m))
      as (k & Ek & Hk).
    rewrite Ek. unfold bind. rewrite Ht.
    destruct (match snd (createThread t) with
              | inl e => inl e
              | inr thread => get thread "id"
              end) as [e | tid].
    + exists []. reflexivity.
    + destruct (Hk tid (fun _ _ _ => I) (t ++ [EvFetch createThread_request]))
        as (new & Hnew & _).
      exists new. rewrite Hnew, <- app_assoc. reflexivity.
  - intros H200. destruct (chat_send_200_inv _ _ H200) as (t' & r & Htry & Hsend).
    apply send_try_inv in Htry.
    destruct Htry as (tid & runId & t3 & t4 & run & msgs & reply & Hreach & _ & _ & _ & ->).
    destruct Hreach as (t1 & t2 & a & run0 & Hth & _).
    rewrite Hs, Ht in Hth. injection Hth as _ Hth.
    destruct (snd (createThread t)) as [e | thread]; [discriminate |].
    exists thread, tid. rewrite Hsend. auto.
Qed.

(** *** A status fetch that does not return a run *)

Lemma poll_step_raises n threadId runId t t1 e :
  getRun threadId runId t = (t1, inl e) ->
  poll (S n) threadId runId t = (t1, inl e).
Proof.
  intros Hr. simpl. unfold bind at 1. rewrite Hr. reflexivity.
Qed.

Lemma poll_step_null n threadId runId t run :
  snd (getRun threadId runId t) = inr run ->
  nullish run = true ->
  poll (S n) threadId runId t
  = (t ++ [EvFetch (getRun_request threadId runId)],
     inl (TypeError_read run "status")).
Proof.
  intros Hr Hn. simpl. unfold bind at 1. rewrite (getRun_run _ _ _ _ Hr).
  unfold bind, lift, get. rewrite Hn. reflexivity.
Qed.

(** X8.  When the N-th status fetch itself fails (a status outside the
    success range, or no response at all) after N - 1 pending ones, the
    poller stops there with that failure, and [/chat/send] answers with the
    status the failure carries (500 when it carries none) and with its
    message and payload: a failure while polling is forwarded like any
    other.  The trace then ends with the N-th fetch when the run id has a
    string form.  When it has none the path of line 74 cannot be built:
    the failure is the TypeError of the conversion, raised at the first
    attempt before any status fetch is made, and it is forwarded in the
    same way. *)
Theorem status_fetch_failure_is_forwarded req_body m t0 threadId runId t N e :
  request_field req_body "message" = JStr m -> m <> "" ->
  reaches_poller (request_field req_body "threadId") (JStr m) t0 threadId runId t ->
  (1 <= N <= 40)%nat ->
  pending_for threadId runId t (N - 1) ->
  snd (getRun threadId runId (after_polls (N - 1) threadId runId t)) = inl e ->
  exists t',
    waitForRunComplete threadId runId t = (t', inl e)
    /\ chat_send req_body t0
       = (t', json_response (status_or e 500) (error_body e))
    /\ (stringifies runId = true -> t' = t ++ attempts threadId runId N)
    /\ (stringifies runId = false ->
        N = 1%nat /\ t' = t /\ e = TypeError_convert).
Proof.
  intros Hm Hne Hreach HN Hp Hr.
  pose proof (reaches_poller_stringifies _ _ _ _ _ _ Hreach) as Hth.
  assert (Hfwd : forall t',
             waitForRunComplete threadId runId t = (t', inl e) ->
             chat_send req_body t0
             = (t', json_response (status_or e 500) (error_body e))).
  { intros t' Hw. rewrite (chat_send_valid _ _ _ Hm Hne).
    rewrite (send_try_poller_raises _ _ _ _ _ _ _ _ Hreach Hw). reflexivity. }
  destruct (stringifies runId) eqn:Hrun.
  - assert (Hw : waitForRunComplete threadId runId t
                 = (t ++ attempts threadId runId N, inl e)).
    { rewrite (poll_after_pending (N - 1) (S (40 - N))) by (lia || exact Hp).
      rewrite after_polls_events in Hr.
      erewrite poll_step_raises
        by (rewrite (getRun_made _ _ _ Hth Hrun), Hr; reflexivity).
      unfold attempts. rewrite <- app_assoc. reflexivity. }
    exists (t ++ attempts threadId runId N).
    split; [exact Hw |]. split; [exact (Hfwd _ Hw) |].
    split; [reflexivity | discriminate].
  - assert (Hnot : forall t1, getRun threadId runId t1 = (t1, inl TypeError_convert)).
    { intros t1. apply getRun_not_made. rewrite Hth, Hrun. reflexivity. }
    assert (EN : N = 1%nat).
    { destruct N as [| [| N']]; [lia | reflexivity |].
      destruct (Hp 0%nat) as (run & Hret & _); [lia |].
      unfold status_fetch_returns in Hret. rewrite Hnot in Hret.
      discriminate Hret. }
    subst N. simpl in Hr. rewrite Hnot in Hr. injection Hr as <-.
    assert (Hw : waitForRunComplete threadId runId t = (t, inl TypeError_convert)).
    { unfold waitForRunComplete. apply poll_step_raises. apply Hnot. }
    exists t. split; [exact Hw |]. split; [exact (Hfwd _ Hw) |].
    split; [discriminate | auto].
Qed.

(** X9.  When the N-th status fetch succeeds with the JSON body [null], the
    read of [run.status] throws: the poller stops there with a TypeError
    and [/chat/send] answers 500 with the TypeError's message and no
    details. *)
Theorem null_run_ends_polling req_body m t0 threadId runId t N run :
  request_field req_body "message" = JStr m -> m <> "" ->
  reaches_poller (request_field req_body "threadId") (JStr m) t0 threadId runId t ->
  (1 <= N <= 40)%nat ->
  pending_for threadId runId t (N - 1) ->
  status_fetch_returns threadId runId t (N - 1) run ->
  nullish run = true ->
  waitForRunComplete threadId runId t
  = (t ++ attempts threadId runId N, inl (TypeError_read run "status"))
  /\ chat_send req_body t0
     = (t ++ attempts threadId runId N,
        json_response 500
          (JObj [("error", JStr (e_message (TypeError_read run "status")));
                 ("details", JUndefined)])).
Proof.
  intros Hm Hne Hreach HN Hp Hr Hn.
  assert (Hw : waitForRunComplete threadId runId t
               = (t ++ attempts threadId runId N,
                  inl (TypeError_read run "status"))).
  { rewrite (poll_after_pending (N - 1) (S (40 - N))) by (lia || exact Hp).
    rewrite (poll_step_null _ _ _ _ run (status_fetch_at _ _ _ _ _ Hr) Hn).
    unfold attempts. rewrite <- app_assoc. reflexivity. }
  split; [exact Hw |].
  rewrite (chat_send_valid _ _ _ Hm Hne).
  rewrite (send_try_poller_raises _ _ _ _ _ _ _ _ Hreach Hw). reflexivity.
Qed.

(** *** What the extraction returns *)

Lemma find_value_inv p l x :
  find_value p l = inr x -> x = JUndefined \/ In x l /\ p x = inr true.
Proof.
  induction l as [| y l IH]; simpl.
  - intros E. injection E as <-. left. reflexivity.
  - destruct (p y) as [e | [|]] eqn:Ey; [discriminate | |].
    + intros E. injection E as <-. right. auto.
    + intros E. destruct (IH E) as [H | [H1 H2]]; [left; exact H | right; auto].
Qed.

(** X10.  Whenever the extraction returns, on any value at all, it returns
    null or the nested value of a text block of an assistant entry, and
    that value is truthy: it never returns undefined, the empty string or
    another falsy value, so a caller can test the result against null
    alone. *)
Theorem extraction_returns_null_or_text messagesList r :
  extractLatestAssistantText messagesList = inr r ->
  r = JNull
  \/ (truthy r = true
      /\ exists m b, In m (entries messagesList) /\ assistant_entry m
                     /\ In b (blocks m) /\ reply_block b
                     /\ r = text_of b).
Proof.
  unfold extractLatestAssistantText. fold (entries messagesList).
  destruct (find_value is_assistant (entries messagesList)) as [e | m] eqn:Em;
    [discriminate |].
  destruct (truthy m) eqn:Tm; simpl negb; cbv iota;
    [| intros E; injection E as <-; left; reflexivity].
  fold (blocks m).
  destruct (find_value is_text_block (blocks m)) as [e | b] eqn:Eb;
    [discriminate |].
  intros E. injection E as <-. rewrite !opt_get_prop.
  apply find_value_inv in Em. destruct Em as [-> | [Hin Hm]]; [discriminate Tm |].
  apply find_value_inv in Eb. destruct Eb as [-> | [Hinb Hb]]; [left; reflexivity |].
  apply is_assistant_inv in Hm. apply is_text_block_inv in Hb.
  fold (text_of b). destruct Hb as [Ht Hv]. right.
  assert (Hc : js_coalesce (text_of b) JNull = text_of b)
    by (unfold js_coalesce; destruct (text_of b); try reflexivity; discriminate Hv).
  rewrite Hc. split; [exact Hv |]. exists m, b. repeat split; auto.
Qed.

(** *** The responses of the routes *)

Lemma status_or_not_ok e : carried_status_ok e -> res_ok (status_or e 500) = false.
Proof.
  unfold carried_status_ok, status_or. destruct (e_status e) as [s |].
  - intros Hs. destruct (Z.eqb_spec s 0); [reflexivity | exact Hs].
  - reflexivity.
Qed.

(** X11.  Every response of [/chat/send] is of one of three kinds: the 400
    response, sent without any upstream request; a 200 response
    [{ threadId, reply }] whose [reply] is the empty string or a truthy
    value; or an error response [{ error, details }] whose status is
    outside 200-299.  An error is never reported with a success status. *)
Theorem chat_send_response_kinds req_body t :
  (chat_send req_body t = (t, invalid_message_response))
  \/ (exists tid reply,
        snd (chat_send req_body t) = success_response tid reply
        /\ (prop (res_body (snd (chat_send req_body t))) "reply" = JStr ""
            \/ truthy (prop (res_body (snd (chat_send req_body t))) "reply") = true))
  \/ (exists e,
        snd (chat_send req_body t)
        = json_response (status_or e 500) (error_body e)
        /\ res_ok (res_status (snd (chat_send req_body t))) = false).
Proof.
  unfold chat_send.
  destruct (negb (truthy (request_field req_body "message"))
            || negb (is_string (request_field req_body "message")));
    [left; reflexivity | right].
  pose proof (raises_ok_send_try (request_field req_body "threadId")
                (request_field req_body "message") t) as Hok.
  destruct (send_try _ _ t) as [t' [e | r]] eqn:Etry; simpl.
  - right. exists e. split; [reflexivity |].
    apply status_or_not_ok. apply Hok. reflexivity.
  - left. apply send_try_inv in Etry.
    destruct Etry as (tid & runId & t3 & t4 & run & msgs & reply & _ & _ & _ & Hx & ->).
    exists tid, reply. split; [reflexivity |]. simpl. unfold js_or.
    destruct (truthy reply) eqn:Tr; [right; exact Tr | left; reflexivity].
Qed.

(** X12.  [/chat/start] makes exactly one upstream request, the thread
    creation, on every call and whatever came before: nothing is cached.
    It answers 200 with the [id] of the returned thread when the creation
    returns a body other than [null], and 500 in every other case. *)
Theorem chat_start_makes_one_request t :
  fst (chat_start t) = t ++ [EvFetch createThread_request]
  /\ (forall thread,
        snd (createThread t) = inr thread -> nullish thread = false ->
        snd (chat_start t)
        = json_response 200 (JObj [("threadId", prop thread "id")]))
  /\ (forall thread,
        snd (createThread t) = inr thread -> nullish thread = true ->
        snd (chat_start t)
        = json_response 500 (error_body (TypeError_read thread "id")))
  /\ (forall e,
        snd (createThread t) = inl e ->
        snd (chat_start t) = json_response 500 (error_body e))
  /\ (res_status (snd (chat_start t)) = 200%Z
      \/ res_status (snd (chat_start t)) = 500%Z).
Proof.
  split; [apply chat_start_trace |].
  unfold chat_start, start_try. unfold bind at 1 3 5 7 9.
  rewrite (surjective_pairing (createThread t)).
  destruct (snd (createThread t)) as [e | thread]; simpl.
  - repeat split; try discriminate; auto.
    intros e' E. injection E as <-. reflexivity.
  - unfold bind, lift, get, ret.
    destruct (nullish thread) eqn:Hn; simpl; repeat split; try discriminate; auto;
      intros th E Hn'; injection E as <-; congruence.
Qed.

(** *** Where a forwarded status comes from *)

Lemma rflr_plain {A} (c : M A) :
  (forall t t' e, c t = (t', inl e) -> e_status e = None) ->
  raises_from_last_response c.
Proof.
  intros H t t' e E s Hs. rewrite (H _ _ _ E) in Hs. discriminate Hs.
Qed.

Lemma rflr_bind {A B} (c : M A) (k : A -> M B) :
  raises_from_last_response c -> (forall a, raises_from_last_response (k a)) ->
  raises_from_last_response (bind c k).
Proof.
  intros Hc Hk t t' e. unfold bind. specialize (Hc t).
  destruct (c t) as [t1 [e1 | a]].
  - intros E. injection E as <- <-. apply Hc. reflexivity.
  - apply Hk.
Qed.

Lemma rflr_openAI path method body beta :
  raises_from_last_response (openAI path method body beta).
Proof.
  intros t t' e. unfold openAI.
  destruct (fetch t (openAI_request path method body beta))
    as [reason | status text] eqn:Ef.
  - intros E. injection E as <- <-. intros s Hs. discriminate Hs.
  - destruct (res_ok status) eqn:Ok; simpl; [discriminate |].
    unfold ToString. destruct (stringifies _); simpl;
      intros E; injection E as <- <-; intros s Hs; [| discriminate Hs].
    simpl in Hs. injection Hs as <-.
    exists t, (openAI_request path method body beta), text. auto.
Qed.

Lemma rflr_get {A} v k (f : value -> M A) :
  (forall a, raises_from_last_response (f a)) ->
  raises_from_last_response (bind (lift (get v k)) f).
Proof.
  intros Hf. apply rflr_bind; [| exact Hf].
  apply rflr_plain. intros t t' e. unfold lift. intros E. injection E as _ E.
  exact (get_raises _ _ _ E).
Qed.

Lemma rflr_with_string {A} v (k : string -> M A) :
  (forall s, raises_from_last_response (k s)) ->
  raises_from_last_response (bind (lift (ToString v)) k).
Proof.
  intros Hk. apply rflr_bind; [| exact Hk].
  apply rflr_plain. intros t t' e. unfold lift, ToString.
  destruct (stringifies v); intros E; inversion E. reflexivity.
Qed.

Lemma rflr_run_failure run status :
  raises_from_last_response (throw_run_failure run status).
Proof.
  apply rflr_plain. intros t t' e E.
  destruct (throw_run_failure_plain run status t) as (e' & E' & He).
  rewrite E' in E. injection E as _ <-. exact He.
Qed.

Ltac rflr_op :=
  first [ apply rflr_openAI
        | unfold addUserMessage, createRun, getRun, listMessages;
          repeat (apply rflr_with_string; intros ?);
          apply rflr_openAI ].

Lemma rflr_poll n threadId runId :
  raises_from_last_response (poll n threadId runId).
Proof.
  induction n as [| n IH]; simpl.
  - apply rflr_plain. intros t t' e E. injection E as _ <-. reflexivity.
  - apply rflr_bind; [rflr_op | intros run].
    apply rflr_get. intros status.
    destruct (strict_eq_str status "completed");
      [apply rflr_plain; intros t t' e E; discriminate E |].
    destruct (is_failure_status status); [apply rflr_run_failure |].
    apply rflr_bind; [| intros _; exact IH].
    apply rflr_plain. intros t t' e E. discriminate E.
Qed.

Lemma rflr_send_try threadId message :
  raises_from_last_response (send_try threadId message).
Proof.
  unfold send_try. apply rflr_bind.
  { unfold thread_for. destruct (truthy threadId && is_string threadId).
    - apply rflr_plain. intros t t' e E. discriminate E.
    - apply rflr_bind; [apply rflr_openAI | intros thread].
      apply rflr_plain. intros t t' e. unfold lift. intros E.
      injection E as _ E. exact (get_raises _ _ _ E). }
  intros tid.
  apply rflr_bind; [rflr_op | intros _].
  apply rflr_bind; [rflr_op | intros run].
  apply rflr_get. intros runId.
  apply rflr_bind; [apply rflr_poll | intros _].
  apply rflr_bind; [rflr_op | intros msgs].
  apply rflr_bind.
  { apply rflr_plain. intros t t' e. unfold lift. intros E.
    injection E as _ E. exact (extract_raises _ _ E). }
  intros reply. apply rflr_plain. intros t t' e E. discriminate E.
Qed.

(** X13.  When [/chat/send] answers with a status other than 400, 200 and
    500, that status is the status of the upstream response to the last
    request the handler made, a status outside 200-299, and [details] is
    the parsed payload of that response: the handler stops at the first
    upstream call that is refused and forwards its status and payload
    unchanged. *)
Theorem forwarded_status_is_last_response req_body t :
  res_status (snd (chat_send req_body t)) <> 400%Z ->
  res_status (snd (chat_send req_body t)) <> 200%Z ->
  res_status (snd (chat_send req_body t)) <> 500%Z ->
  exists t0 rq text,
    fst (chat_send req_body t) = t0 ++ [EvFetch rq]
    /\ fetch t0 rq = Resolved (res_status (snd (chat_send req_body t))) text
    /\ res_ok (res_status (snd (chat_send req_body t))) = false
    /\ prop (res_body (snd (chat_send req_body t))) "details" = parse_payload text.
Proof.
  unfold chat_send.
  destruct (negb (truthy (request_field req_body "message"))
            || negb (is_string (request_field req_body "message")));
    [simpl; intros H; contradiction H; reflexivity |].
  pose proof (rflr_send_try (request_field req_body "threadId")
                (request_field req_body "message") t) as Hfrom.
  pose proof (send_try_inv (request_field req_body "threadId")
                (request_field req_body "message") t) as Hinv.
  destruct (send_try _ _ t) as [t' [e | r]]; simpl.
  - intros _ _ H500. specialize (Hfrom t' e eq_refl).
    unfold status_or in *. destruct (e_status e) as [s |] eqn:Es;
      [| contradiction H500; reflexivity].
    destruct (Z.eqb_spec s 0); [contradiction H500; reflexivity |].
    destruct (Hfrom s Es) as (t0 & rq & text & E1 & E2 & E3 & E4).
    exists t0, rq, text. auto.
  - intros _ H200 _. exfalso. apply H200.
    destruct (Hinv t' r eq_refl)
      as (tid & runId & t3 & t4 & run & msgs & reply & _ & _ & _ & _ & ->).
    reflexivity.
Qed.

(** X14.  A null or undefined entry of the listed messages that comes
    before the first assistant entry makes the extraction throw: the run
    has completed and the messages were listed, and [/chat/send] answers
    500 with the TypeError's message. *)
Theorem null_entry_in_listing_answers_500
    req_body m t0 threadId runId t t' run msgs pre x post :
  request_field req_body "message" = JStr m -> m <> "" ->
  reaches_poller (request_field req_body "threadId") (JStr m) t0 threadId runId t ->
  waitForRunComplete threadId runId t = (t', inr run) ->
  snd (listMessages threadId 20 t') = inr msgs ->
  entries msgs = pre ++ x :: post ->
  Forall other_entry pre -> nullish x = true ->
  extractLatestAssistantText msgs = inl (TypeError_read x "role")
  /\ chat_send req_body t0
     = (t' ++ [EvFetch (listMessages_request threadId 20)],
        json_response 500 (error_body (TypeError_read x "role"))).
Proof.
  intros Hm Hne Hreach Hw Hl He Hpre Hx.
  assert (Hex : extractLatestAssistantText msgs = inl (TypeError_read x "role")).
  { unfold extractLatestAssistantText. fold (entries msgs). rewrite He.
    assert (Hf : find_value is_assistant (pre ++ x :: post)
                 = inl (TypeError_read x "role")).
    { clear He. induction Hpre as [| y pre Hy _ IH]; simpl.
      - unfold is_assistant, get. rewrite Hx. reflexivity.
      - rewrite (is_assistant_other _ Hy). exact IH. }
    rewrite Hf. reflexivity. }
  split; [exact Hex |].
  rewrite (chat_send_valid _ _ _ Hm Hne).
  rewrite (send_try_poller_returns _ _ _ _ _ _ _ _ Hreach Hw), Hl, Hex.
  reflexivity.
Qed.

(** X15.  When the upstream cannot be reached (every [fetch] rejects with
    the same reason), [/chat/start] and every [/chat/send] request with a
    valid message make exactly one request and answer 500 with that reason
    as [error] and no [details]. *)
Theorem unreachable_upstream_answers_500 t reason :
  (forall rq, fetch t rq = Rejected reason) ->
  chat_start t
  = (t ++ [EvFetch createThread_request],
     json_response 500 (JObj [("error", JStr reason); ("details", JUndefined)]))
  /\ (forall req_body m,
        request_field req_body "message" = JStr m -> m <> "" ->
        exists rq,
          chat_send req_body t
          = (t ++ [EvFetch rq],
             json_response 500
               (JObj [("error", JStr reason); ("details", JUndefined)]))).
Proof.
  intros Hdown.
  assert (Hcall : forall path method body beta,
             openAI path method body beta t
             = (t ++ [EvFetch (openAI_request path method body beta)],
                inl (Error reason))).
  { intros. unfold openAI. rewrite Hdown. reflexivity. }
  split.
  - unfold chat_start, start_try, createThread.
    erewrite bind_inl by apply Hcall. reflexivity.
  - intros req_body m Hm Hne. rewrite (chat_send_valid _ _ _ Hm Hne).
    unfold send_try, thread_for.
    destruct (truthy (request_field req_body "threadId")
              && is_string (request_field req_body "threadId")) eqn:Hc.
    + assert (Hs : stringifies (request_field req_body "threadId") = true).
      { apply andb_prop in Hc. destruct Hc as [_ Hc].
        destruct (request_field req_body "threadId"); try discriminate Hc.
        reflexivity. }
      eexists.
      rewrite (bind_inr (ret (request_field req_body "threadId")) _ t t _ eq_refl).
      erewrite bind_inl
        by (unfold addUserMessage; rewrite (with_string_ok _ _ _ Hs); apply Hcall).
      reflexivity.
    + eexists. unfold createThread.
      erewrite bind_inl by (apply bind_inl; apply Hcall). reflexivity.
Qed.

End FurtherProperties.

(** ** Concrete runs *)

Example send_first_message :
  chat_send (rt := Scenario.completes) Scenario.first_message []
  = (Scenario.before_polling Scenario.completes
     ++ attempts (rt := Scenario.completes) (JStr "thread_1") (JStr "run_1") 2
     ++ [EvFetch (listMessages_request (rt := Scenario.completes) (JStr "thread_1") 20)],
     success_response (JStr "thread_1") (JStr "hello")).
Proof. vm_compute. reflexivity. Qed.


Lemma chat_send_non_string_message_witness :
  is_string (request_field (JObj [("message", JArr [JStr "hi"])]) "message") = false
  /\ chat_send (rt := Scenario.completes) (JObj [("message", JArr [JStr "hi"])]) []
     = ([], invalid_message_response).
Proof.
  split; [reflexivity |].
  apply (chat_send_non_string_message (rt := Scenario.completes)
           (JObj [("message", JArr [JStr "hi"])]) []).
  reflexivity.
Defined.

Lemma chat_send_empty_message_witness :
  request_field (JObj [("threadId", JStr "thread_1"); ("message", JStr "")]) "message"
  = JStr ""
  /\ chat_send (rt := Scenario.completes)
       (JObj [("threadId", JStr "thread_1"); ("message", JStr "")]) []
     = ([], invalid_message_response).
Proof.
  split; [reflexivity |].
  apply (chat_send_empty_message (rt := Scenario.completes)
           (JObj [("threadId", JStr "thread_1"); ("message", JStr "")]) []).
  reflexivity.
Defined.

Lemma completed_on_Nth_fetch_witness :
  request_field Scenario.first_message "message" = JStr "hi"
  /\ "hi" <> ""
  /\ reaches_poller (rt := Scenario.completes)
       (request_field Scenario.first_message "threadId") (JStr "hi") []
       (JStr "thread_1") (JStr "run_1") (Scenario.before_polling Scenario.completes)
  /\ (1 <= 2 <= 40)%nat
  /\ pending_for (rt := Scenario.completes) (JStr "thread_1") (JStr "run_1")
       (Scenario.before_polling Scenario.completes) (2 - 1)
  /\ status_fetch_returns (rt := Scenario.completes) (JStr "thread_1") (JStr "run_1")
       (Scenario.before_polling Scenario.completes) (2 - 1) Scenario.run_completed
  /\ prop Scenario.run_completed "status" = JStr "completed"
  /\ fetches (attempts (rt := Scenario.completes) (JStr "thread_1") (JStr "run_1") 2)
     = repeat (getRun_request (rt := Scenario.completes)
                 (JStr "thread_1") (JStr "run_1")) 2
  /\ fst (chat_send (rt := Scenario.completes) Scenario.first_message [])
     = (Scenario.before_polling Scenario.completes
        ++ attempts (rt := Scenario.completes) (JStr "thread_1") (JStr "run_1") 2)
       ++ [EvFetch (listMessages_request (rt := Scenario.completes)
                      (JStr "thread_1") 20)].
Proof.
  assert (H1 : request_field Scenario.first_message "message" = JStr "hi")
    by reflexivity.
  assert (H2 : "hi" <> "") by discriminate.
  assert (H3 : reaches_poller (rt := Scenario.completes)
                 (request_field Scenario.first_message "threadId")
                 (JStr "hi") [] (JStr "thread_1") (JStr "run_1")
                 (Scenario.before_polling Scenario.completes)).
  { exists [EvFetch (createThread_request (rt := Scenario.completes))],
           [EvFetch (createThread_request (rt := Scenario.completes));
            EvFetch (addUserMessage_request (rt := Scenario.completes)
                       (JStr "thread_1") (JStr "hi"))],
           Scenario.appended, Scenario.run_queued.
    repeat split; vm_compute; reflexivity. }
  assert (H4 : (1 <= 2 <= 40)%nat) by lia.
  assert (H5 : pending_for (rt := Scenario.completes) (JStr "thread_1") (JStr "run_1")
                 (Scenario.before_polling Scenario.completes) (2 - 1)).
  { intros j Hj. destruct j as [| j]; [| simpl in Hj; lia].
    exists Scenario.run_in_progress. split; vm_compute; reflexivity. }
  assert (H6 : status_fetch_returns (rt := Scenario.completes)
                 (JStr "thread_1") (JStr "run_1")
                 (Scenario.before_polling Scenario.completes) (2 - 1)
                 Scenario.run_completed)
    by (vm_compute; reflexivity).
  assert (H7 : prop Scenario.run_completed "status" = JStr "completed")
    by reflexivity.
  repeat (split; [assumption |]).
  destruct (completed_on_Nth_fetch (rt := Scenario.completes)
              Scenario.first_message "hi" []
              (JStr "thread_1") (JStr "run_1")
              (Scenario.before_polling Scenario.completes) 2
              Scenario.run_completed H1 H2 H3 H4 H5 H6 H7) as (_ & Hn & Hl).
  split; [exact Hn | exact Hl].
Defined.

Lemma no_terminal_status_times_out_witness :
  request_field Scenario.first_message "message" = JStr "hi"
  /\ "hi" <> ""
  /\ reaches_poller (rt := Scenario.stalls)
       (request_field Scenario.first_message "threadId") (JStr "hi") []
       (JStr "thread_1") (JStr "run_1") (Scenario.before_polling Scenario.stalls)
  /\ pending_for (rt := Scenario.stalls) (JStr "thread_1") (JStr "run_1")
       (Scenario.before_polling Scenario.stalls) 40
  /\ fetches (concat (repeat (poll_round (rt := Scenario.stalls)
                                (JStr "thread_1") (JStr "run_1")) 40))
     = repeat (getRun_request (rt := Scenario.stalls) (JStr "thread_1") (JStr "run_1")) 40
  /\ chat_send (rt := Scenario.stalls) Scenario.first_message []
     = (Scenario.before_polling Scenario.stalls
        ++ concat (repeat (poll_round (rt := Scenario.stalls)
                             (JStr "thread_1") (JStr "run_1")) 40),
        json_response 500 (error_body timeout_error)).
Proof.
  assert (H1 : request_field Scenario.first_message "message" = JStr "hi")
    by reflexivity.
  assert (H2 : "hi" <> "") by discriminate.
  assert (H3 : reaches_poller (rt := Scenario.stalls)
                 (request_field Scenario.first_message "threadId")
                 (JStr "hi") [] (JStr "thread_1") (JStr "run_1")
                 (Scenario.before_polling Scenario.stalls)).
  { exists [EvFetch (createThread_request (rt := Scenario.stalls))],
           [EvFetch (createThread_request (rt := Scenario.stalls));
            EvFetch (addUserMessage_request (rt := Scenario.stalls)
                       (JStr "thread_1") (JStr "hi"))],
           Scenario.appended, Scenario.run_queued.
    repeat split; vm_compute; reflexivity. }
  assert (H4 : pending_for (rt := Scenario.stalls) (JStr "thread_1") (JStr "run_1")
                 (Scenario.before_polling Scenario.stalls) 40).
  { intros j Hj.
    exists Scenario.run_in_progress. split; [| reflexivity].
    do 40 (destruct j as [| j]; [vm_compute; reflexivity |]). lia. }
  repeat (split; [assumption |]).
  destruct (no_terminal_status_times_out (rt := Scenario.stalls)
              Scenario.first_message "hi" []
              (JStr "thread_1") (JStr "run_1")
              (Scenario.before_polling Scenario.stalls) H1 H2 H3 H4)
    as (_ & Hn & Hs & _).
  split; [exact Hn | exact Hs].
Defined.

(** The run is found failed with message "boom" on the first status fetch:
    one status fetch, and the failure says "boom". *)
Lemma failed_run_raises_witness :
  (1 <= 1 <= 40)%nat
  /\ pending_for (rt := Scenario.fails_boom) (JStr "thread_1") (JStr "run_1") [] (1 - 1)
  /\ status_fetch_returns (rt := Scenario.fails_boom)
       (JStr "thread_1") (JStr "run_1") [] (1 - 1) Scenario.run_failed_boom
  /\ is_failure_status (prop Scenario.run_failed_boom "status") = true
  /\ exists e,
       waitForRunComplete (rt := Scenario.fails_boom) (JStr "thread_1") (JStr "run_1") []
       = ([EvFetch (getRun_request (rt := Scenario.fails_boom)
                      (JStr "thread_1") (JStr "run_1"))], inl e)
       /\ e_message e = "boom".
Proof.
  assert (H1 : (1 <= 1 <= 40)%nat) by lia.
  assert (H2 : pending_for (rt := Scenario.fails_boom)
                 (JStr "thread_1") (JStr "run_1") [] (1 - 1))
    by (intros j Hj; simpl in Hj; lia).
  assert (H3 : status_fetch_returns (rt := Scenario.fails_boom)
                 (JStr "thread_1") (JStr "run_1") [] (1 - 1)
                 Scenario.run_failed_boom)
    by (vm_compute; reflexivity).
  assert (H4 : is_failure_status (prop Scenario.run_failed_boom "status") = true)
    by reflexivity.
  repeat (split; [assumption |]).
  destruct (failed_run_raises (rt := Scenario.fails_boom)
              (JStr "thread_1") (JStr "run_1") [] 1
              Scenario.run_failed_boom H1 H2 H3 H4)
    as (e & Hw & _ & _ & Hm & _).
  exists e. split; [exact Hw |].
  rewrite (Hm "boom"); [reflexivity | reflexivity | discriminate].
Defined.

(** A failed run whose [last_error.message] is the empty string: the field
    is there, and the failure says "Run failed". *)
Lemma run_failure_counterexample :
  ~ run_failure_as_stated (rt := Scenario.fails_silent).
Proof.
  intros H.
  destruct (H (JStr "thread_1") (JStr "run_1") [] 1%nat Scenario.run_failed_silent)
    as (e & Hw & Hm & _).
  - lia.
  - intros j Hj. simpl in Hj. lia.
  - vm_compute. reflexivity.
  - reflexivity.
  - specialize (Hm "" eq_refl). vm_compute in Hw.
    injection Hw as Hw. subst e. discriminate Hm.
Qed.

Lemma openAI_error_contract_witness :
  fetch (Runtime := Scenario.refuses) []
    (createThread_request (rt := Scenario.refuses))
  = Resolved 401 (render Scenario.unauthorized)
  /\ res_ok 401 = false
  /\ exists e,
       snd (createThread (rt := Scenario.refuses) []) = inl e
       /\ e_message e = "Incorrect API key provided"
       /\ e_status e = Some 401%Z
       /\ e_data e = Scenario.unauthorized.
Proof.
  assert (H1 : fetch (Runtime := Scenario.refuses) []
                 (createThread_request (rt := Scenario.refuses))
               = Resolved 401 (render Scenario.unauthorized)) by reflexivity.
  assert (H2 : res_ok 401 = false) by reflexivity.
  repeat (split; [assumption |]).
  destruct (openAI_error_contract (rt := Scenario.refuses)
              "/threads" "POST" (Some (JObj [])) true []
              401%Z (render Scenario.unauthorized) H1 H2)
    as (e & Hc & Hm & _).
  exists e. split; [unfold createThread; rewrite Hc; reflexivity |].
  rewrite (Hm "Incorrect API key provided");
    [| vm_compute; reflexivity | discriminate].
  split; [reflexivity |]. split; [reflexivity |]. vm_compute. reflexivity.
Defined.

(** Upstream answers 500 with an error object whose [message] is the empty
    string: the field is there, and the failure carries the generic
    message. *)
Lemma error_contract_counterexample :
  ~ error_contract_as_stated (rt := Scenario.breaks_silently).
Proof.
  intros H.
  destruct (H "/threads" "POST" (Some (JObj [])) true [] 500%Z
              (render Scenario.silent_error))
    as (e & Hc & _ & _ & Hm & _).
  - reflexivity.
  - reflexivity.
  - assert (E : e_message e = "") by (apply Hm; vm_compute; reflexivity).
    vm_compute in Hc. injection Hc as Hc. subst e. discriminate E.
Qed.

(** Upstream answers the thread creation with 401: [/chat/start] answers
    500, not 401. *)
Lemma failure_status_counterexample :
  ~ failure_status_as_stated (rt := Scenario.refuses).
Proof.
  intros [Hstart _].
  specialize (Hstart []
    [EvFetch (createThread_request (rt := Scenario.refuses))]
    {| e_message := "Incorrect API key provided";
       e_status := Some 401%Z;
       e_data := Scenario.unauthorized |}).
  assert (E : res_status (snd (chat_start (rt := Scenario.refuses) [])) = 401%Z)
    by (rewrite Hstart; [reflexivity | vm_compute; reflexivity]).
  vm_compute in E. discriminate E.
Qed.

Lemma failure_responses_witness :
  start_try (rt := Scenario.refuses) []
  = ([EvFetch (createThread_request (rt := Scenario.refuses))],
     inl {| e_message := "Incorrect API key provided";
            e_status := Some 401%Z;
            e_data := Scenario.unauthorized |})
  /\ res_status (snd (chat_start (rt := Scenario.refuses) [])) = 500%Z
  /\ request_field Scenario.next_message "message" = JStr "hi"
  /\ "hi" <> ""
  /\ send_try (rt := Scenario.refuses)
       (request_field Scenario.next_message "threadId") (JStr "hi") []
     = ([EvFetch (addUserMessage_request (rt := Scenario.refuses)
                    (JStr "thread_1") (JStr "hi"))],
        inl {| e_message := "Incorrect API key provided";
               e_status := Some 401%Z;
               e_data := Scenario.unauthorized |})
  /\ res_status (snd (chat_send (rt := Scenario.refuses) Scenario.next_message []))
     = 401%Z.
Proof.
  assert (H0 : start_try (rt := Scenario.refuses) []
               = ([EvFetch (createThread_request (rt := Scenario.refuses))],
                  inl {| e_message := "Incorrect API key provided";
                         e_status := Some 401%Z;
                         e_data := Scenario.unauthorized |}))
    by (vm_compute; reflexivity).
  assert (H1 : request_field Scenario.next_message "message" = JStr "hi")
    by reflexivity.
  assert (H2 : "hi" <> "") by discriminate.
  assert (H3 : send_try (rt := Scenario.refuses)
                 (request_field Scenario.next_message "threadId") (JStr "hi") []
               = ([EvFetch (addUserMessage_request (rt := Scenario.refuses)
                              (JStr "thread_1") (JStr "hi"))],
                  inl {| e_message := "Incorrect API key provided";
                         e_status := Some 401%Z;
                         e_data := Scenario.unauthorized |}))
    by (vm_compute; reflexivity).
  destruct (failure_responses (rt := Scenario.refuses)) as [Hstart Hsend].
  destruct (Hstart _ _ _ H0) as [Es _].
  destruct (Hsend _ _ _ _ _ H1 H2 H3) as (E & _ & _ & _).
  split; [exact H0 |]. split; [rewrite Es; reflexivity |].
  repeat (split; [assumption |]).
  rewrite E. reflexivity.
Defined.

(** A message list with a null entry makes the extraction throw, and a
    nested value that is no string is returned as it is. *)
Lemma extraction_total_counterexample :
  extractLatestAssistantText (JObj [("data", JArr [JNull])])
  = inl (TypeError_read JNull "role")
  /\ extractLatestAssistantText
       (JObj [("data",
               JArr [JObj [("role", JStr "assistant");
                           ("content",
                            JArr [JObj [("type", JStr "text");
                                        ("text", JObj [("value", JBool true)])]])]])])
     = inr (JBool true)
  /\ ~ extraction_total_as_stated.
Proof.
  split; [reflexivity |]. split; [reflexivity |].
  intros H. destruct (H (JObj [("data", JArr [JNull])])) as (r & E & _).
  discriminate E.
Qed.

Lemma extraction_total_on_objects_witness :
  Forall (fun m => nullish m = false) (entries Scenario.messages)
  /\ (forall m, In m (entries Scenario.messages) ->
                Forall (fun b => nullish b = false) (blocks m))
  /\ exists r, extractLatestAssistantText Scenario.messages = inr r
               /\ (r = JNull \/ truthy r = true).
Proof.
  assert (H1 : Forall (fun m => nullish m = false) (entries Scenario.messages))
    by (repeat constructor).
  assert (H2 : forall m, In m (entries Scenario.messages) ->
                         Forall (fun b => nullish b = false) (blocks m)).
  { intros m Hin. simpl in Hin.
    destruct Hin as [<- | [<- | [<- | []]]]; repeat constructor. }
  repeat (split; [assumption |]).
  destruct (proj1 extraction_total_on_objects Scenario.messages H1 H2)
    as (r & E & Hr).
  exists r. split; [exact E |].
  destruct Hr as [Hr | [Hr _]]; [left | right]; exact Hr.
Defined.

Lemma extraction_selects_first_text_witness :
  (entries Scenario.messages
   = [Scenario.user_thanks] ++ Scenario.assistant_hello :: [Scenario.user_hi]
   /\ Forall other_entry [Scenario.user_thanks]
   /\ assistant_entry Scenario.assistant_hello
   /\ blocks Scenario.assistant_hello
      = [Scenario.image_block] ++ Scenario.text_block "hello" :: [Scenario.text_block "again"]
   /\ Forall skipped_block [Scenario.image_block]
   /\ reply_block (Scenario.text_block "hello")
   /\ extractLatestAssistantText Scenario.messages = inr (JStr "hello"))
  /\ (request_field Scenario.next_message "message" = JStr "hi"
      /\ "hi" <> ""
      /\ reaches_poller (rt := Edge.no_reply)
           (request_field Scenario.next_message "threadId") (JStr "hi") []
           (JStr "thread_1") (JStr "run_1") (Edge.before_polling Edge.no_reply)
      /\ waitForRunComplete (rt := Edge.no_reply) (JStr "thread_1") (JStr "run_1")
           (Edge.before_polling Edge.no_reply)
         = (Edge.before_polling Edge.no_reply
            ++ [EvFetch (getRun_request (rt := Edge.no_reply)
                           (JStr "thread_1") (JStr "run_1"))],
            inr Scenario.run_completed)
      /\ snd (listMessages (rt := Edge.no_reply) (JStr "thread_1") 20
                (Edge.before_polling Edge.no_reply
                 ++ [EvFetch (getRun_request (rt := Edge.no_reply)
                                (JStr "thread_1") (JStr "run_1"))]))
         = inr Edge.messages_without_reply
      /\ Forall other_entry (entries Edge.messages_without_reply)
      /\ chat_send (rt := Edge.no_reply) Scenario.next_message []
         = ((Edge.before_polling Edge.no_reply
             ++ [EvFetch (getRun_request (rt := Edge.no_reply)
                            (JStr "thread_1") (JStr "run_1"))])
            ++ [EvFetch (listMessages_request (rt := Edge.no_reply)
                           (JStr "thread_1") 20)],
            json_response 200
              (JObj [("threadId", JStr "thread_1"); ("reply", JStr "")]))).
Proof.
  split.
  - assert (H1 : entries Scenario.messages
                 = [Scenario.user_thanks] ++ Scenario.assistant_hello :: [Scenario.user_hi])
      by reflexivity.
    assert (H2 : Forall other_entry [Scenario.user_thanks])
      by (repeat constructor; discriminate).
    assert (H3 : assistant_entry Scenario.assistant_hello) by reflexivity.
    assert (H4 : blocks Scenario.assistant_hello
                 = [Scenario.image_block] ++ Scenario.text_block "hello"
                     :: [Scenario.text_block "again"])
      by reflexivity.
    assert (H5 : Forall skipped_block [Scenario.image_block]).
    { repeat constructor. intros [Ht _]. discriminate Ht. }
    assert (H6 : reply_block (Scenario.text_block "hello"))
      by (split; reflexivity).
    repeat (split; [assumption |]).
    exact (proj1 (extraction_selects_first_text (rt := Scenario.completes))
             _ _ _ _ _ _ _ H1 H2 H3 H4 H5 H6).
  - assert (H1 : request_field Scenario.next_message "message" = JStr "hi")
      by reflexivity.
    assert (H2 : "hi" <> "") by discriminate.
    assert (H3 : reaches_poller (rt := Edge.no_reply)
                   (request_field Scenario.next_message "threadId") (JStr "hi") []
                   (JStr "thread_1") (JStr "run_1")
                   (Edge.before_polling Edge.no_reply)).
    { exists [],
             [EvFetch (addUserMessage_request (rt := Edge.no_reply)
                         (JStr "thread_1") (JStr "hi"))],
             Scenario.appended, Scenario.run_queued.
      repeat split; vm_compute; reflexivity. }
    assert (H4 : waitForRunComplete (rt := Edge.no_reply)
                   (JStr "thread_1") (JStr "run_1")
                   (Edge.before_polling Edge.no_reply)
                 = (Edge.before_polling Edge.no_reply
                    ++ [EvFetch (getRun_request (rt := Edge.no_reply)
                                   (JStr "thread_1") (JStr "run_1"))],
                    inr Scenario.run_completed))
      by (vm_compute; reflexivity).
    assert (H5 : snd (listMessages (rt := Edge.no_reply) (JStr "thread_1") 20
                        (Edge.before_polling Edge.no_reply
                         ++ [EvFetch (getRun_request (rt := Edge.no_reply)
                                        (JStr "thread_1") (JStr "run_1"))]))
                 = inr Edge.messages_without_reply)
      by (vm_compute; reflexivity).
    assert (H6 : Forall other_entry (entries Edge.messages_without_reply))
      by (repeat constructor; discriminate).
    repeat (split; [assumption |]).
    exact (proj2 (proj2 (proj2 (proj2 (proj2 (proj2
             (extraction_selects_first_text (rt := Edge.no_reply))))))
             Scenario.next_message "hi" [] (JStr "thread_1") (JStr "run_1")
             (Edge.before_polling Edge.no_reply) _ Scenario.run_completed
             Edge.messages_without_reply H1 H2 H3 H4 H5)
           H6).
Defined.

(** ** Concrete runs at the edges *)

Lemma openAI_body_without_json_witness :
  fetch (Runtime := Edge.bad_gateway) []
    (createThread_request (rt := Edge.bad_gateway))
  = Resolved 502 "<html>Bad Gateway</html>"
  /\ ("<html>Bad Gateway</html>" = ""
      \/ JSON_parse (Runtime := Edge.bad_gateway) "<html>Bad Gateway</html>" = None)
  /\ createThread (rt := Edge.bad_gateway) []
     = ([EvFetch (createThread_request (rt := Edge.bad_gateway))],
        inl {| e_message := "OpenAI request failed (502)";
               e_status := Some 502%Z;
               e_data := JObj [("raw", JStr "<html>Bad Gateway</html>")] |}).
Proof.
  assert (H1 : fetch (Runtime := Edge.bad_gateway) []
                 (createThread_request (rt := Edge.bad_gateway))
               = Resolved 502 "<html>Bad Gateway</html>") by reflexivity.
  assert (H2 : "<html>Bad Gateway</html>" = ""
               \/ JSON_parse (Runtime := Edge.bad_gateway)
                    "<html>Bad Gateway</html>" = None)
    by (right; vm_compute; reflexivity).
  repeat (split; [assumption |]).
  exact (openAI_body_without_json (rt := Edge.bad_gateway)
           "/threads" "POST" (Some (JObj [])) true [] 502%Z
           "<html>Bad Gateway</html>" H1 H2).
Defined.

Lemma waitForRunComplete_returns_completed_witness :
  waitForRunComplete (rt := Scenario.completes) (JStr "thread_1") (JStr "run_1")
    (Scenario.before_polling Scenario.completes)
  = (Scenario.before_polling Scenario.completes
     ++ attempts (rt := Scenario.completes) (JStr "thread_1") (JStr "run_1") 2,
     inr Scenario.run_completed)
  /\ prop Scenario.run_completed "status" = JStr "completed".
Proof.
  assert (H : waitForRunComplete (rt := Scenario.completes)
                (JStr "thread_1") (JStr "run_1")
                (Scenario.before_polling Scenario.completes)
              = (Scenario.before_polling Scenario.completes
                 ++ attempts (rt := Scenario.completes)
                      (JStr "thread_1") (JStr "run_1") 2,
                 inr Scenario.run_completed))
    by (vm_compute; reflexivity).
  split; [exact H |].
  exact (proj1 (waitForRunComplete_returns_completed (rt := Scenario.completes)
                  _ _ _ _ _ H)).
Defined.

Lemma successful_send_requests_witness :
  res_status (snd (chat_send (rt := Scenario.completes) Scenario.first_message []))
  = 200%Z
  /\ exists N,
       (1 <= N <= 40)%nat
       /\ fst (chat_send (rt := Scenario.completes) Scenario.first_message [])
          = [] ++ [EvFetch (createThread_request (rt := Scenario.completes))]
               ++ [EvFetch (addUserMessage_request (rt := Scenario.completes)
                              (JStr "thread_1") (JStr "hi"));
                   EvFetch (createRun_request (rt := Scenario.completes)
                              (JStr "thread_1"))]
               ++ attempts (rt := Scenario.completes) (JStr "thread_1") (JStr "run_1") N
               ++ [EvFetch (listMessages_request (rt := Scenario.completes)
                              (JStr "thread_1") 20)].
Proof.
  assert (H : res_status (snd (chat_send (rt := Scenario.completes)
                                 Scenario.first_message [])) = 200%Z)
    by (vm_compute; reflexivity).
  split; [exact H |].
  destruct (successful_send_requests (rt := Scenario.completes)
              Scenario.first_message [] H)
    as (m & tid & runId & N & pre & _ & _ & _ & HN & _).
  exists 2%nat. split; [lia |]. vm_compute. reflexivity.
Defined.

Lemma send_with_thread_reuses_it_witness :
  request_field Scenario.next_message "message" = JStr "hi"
  /\ "hi" <> ""
  /\ request_field Scenario.next_message "threadId" = JStr "thread_1"
  /\ "thread_1" <> ""
  /\ res_status (snd (chat_send (rt := Edge.continues) Scenario.next_message []))
     = 200%Z
  /\ prop (res_body (snd (chat_send (rt := Edge.continues) Scenario.next_message [])))
          "threadId"
     = JStr "thread_1".
Proof.
  assert (H1 : request_field Scenario.next_message "message" = JStr "hi")
    by reflexivity.
  assert (H2 : "hi" <> "") by discriminate.
  assert (H3 : request_field Scenario.next_message "threadId" = JStr "thread_1")
    by reflexivity.
  assert (H4 : "thread_1" <> "") by discriminate.
  assert (H5 : res_status (snd (chat_send (rt := Edge.continues)
                                  Scenario.next_message [])) = 200%Z)
    by (vm_compute; reflexivity).
  repeat (split; [assumption |]).
  destruct (send_with_thread_reuses_it (rt := Edge.continues)
              Scenario.next_message "hi" "thread_1" [] H1 H2 H3 H4)
    as (rest & _ & _ & Hid).
  exact (Hid H5).
Defined.

Lemma send_with_empty_thread_creates_one_witness :
  request_field Edge.empty_thread_message "message" = JStr "hi"
  /\ "hi" <> ""
  /\ request_field Edge.empty_thread_message "threadId" = JStr ""
  /\ exists rest,
       fst (chat_send (rt := Scenario.completes) Edge.empty_thread_message [])
       = [] ++ EvFetch (createThread_request (rt := Scenario.completes)) :: rest.
Proof.
  assert (H1 : request_field Edge.empty_thread_message "message" = JStr "hi")
    by reflexivity.
  assert (H2 : "hi" <> "") by discriminate.
  assert (H3 : request_field Edge.empty_thread_message "threadId" = JStr "")
    by reflexivity.
  repeat (split; [assumption |]).
  exact (proj1 (send_with_empty_thread_creates_one (rt := Scenario.completes)
                  Edge.empty_thread_message "hi" [] H1 H2 H3)).
Defined.

Lemma status_fetch_failure_is_forwarded_witness :
  request_field Scenario.next_message "message" = JStr "hi"
  /\ "hi" <> ""
  /\ reaches_poller (rt := Edge.throttled)
       (request_field Scenario.next_message "threadId") (JStr "hi") []
       (JStr "thread_1") (JStr "run_1") (Edge.before_polling Edge.throttled)
  /\ (1 <= 2 <= 40)%nat
  /\ pending_for (rt := Edge.throttled) (JStr "thread_1") (JStr "run_1")
       (Edge.before_polling Edge.throttled) (2 - 1)
  /\ snd (getRun (rt := Edge.throttled) (JStr "thread_1") (JStr "run_1")
            (after_polls (rt := Edge.throttled) (2 - 1) (JStr "thread_1") (JStr "run_1")
               (Edge.before_polling Edge.throttled)))
     = inl {| e_message := "Rate limit reached";
              e_status := Some 429%Z;
              e_data := Edge.rate_limited |}
  /\ res_status (snd (chat_send (rt := Edge.throttled) Scenario.next_message []))
     = 429%Z.
Proof.
  assert (H1 : request_field Scenario.next_message "message" = JStr "hi")
    by reflexivity.
  assert (H2 : "hi" <> "") by discriminate.
  assert (H3 : reaches_poller (rt := Edge.throttled)
                 (request_field Scenario.next_message "threadId") (JStr "hi") []
                 (JStr "thread_1") (JStr "run_1")
                 (Edge.before_polling Edge.throttled)).
  { exists [],
           [EvFetch (addUserMessage_request (rt := Edge.throttled)
                       (JStr "thread_1") (JStr "hi"))],
           Scenario.appended, Scenario.run_queued.
    repeat split; vm_compute; reflexivity. }
  assert (H4 : (1 <= 2 <= 40)%nat) by lia.
  assert (H5 : pending_for (rt := Edge.throttled) (JStr "thread_1") (JStr "run_1")
                 (Edge.before_polling Edge.throttled) (2 - 1)).
  { intros j Hj. destruct j as [| j]; [| simpl in Hj; lia].
    exists Scenario.run_in_progress. split; vm_compute; reflexivity. }
  assert (H6 : snd (getRun (rt := Edge.throttled) (JStr "thread_1") (JStr "run_1")
                      (after_polls (rt := Edge.throttled) (2 - 1)
                         (JStr "thread_1") (JStr "run_1")
                         (Edge.before_polling Edge.throttled)))
               = inl {| e_message := "Rate limit reached";
                        e_status := Some 429%Z;
                        e_data := Edge.rate_limited |})
    by (vm_compute; reflexivity).
  repeat (split; [assumption |]).
  destruct (status_fetch_failure_is_forwarded (rt := Edge.throttled)
              Scenario.next_message "hi" [] (JStr "thread_1") (JStr "run_1")
              (Edge.before_polling Edge.throttled) 2 _ H1 H2 H3 H4 H5 H6)
    as (t' & _ & E & _).
  rewrite E. reflexivity.
Defined.

Lemma null_run_ends_polling_witness :
  request_field Scenario.next_message "message" = JStr "hi"
  /\ "hi" <> ""
  /\ reaches_poller (rt := Edge.answers_null)
       (request_field Scenario.next_message "threadId") (JStr "hi") []
       (JStr "thread_1") (JStr "run_1") (Edge.before_polling Edge.answers_null)
  /\ (1 <= 1 <= 40)%nat
  /\ pending_for (rt := Edge.answers_null) (JStr "thread_1") (JStr "run_1")
       (Edge.before_polling Edge.answers_null) (1 - 1)
  /\ status_fetch_returns (rt := Edge.answers_null) (JStr "thread_1") (JStr "run_1")
       (Edge.before_polling Edge.answers_null) (1 - 1) JNull
  /\ nullish JNull = true
  /\ snd (chat_send (rt := Edge.answers_null) Scenario.next_message [])
     = json_response 500
         (JObj [("error", JStr "Cannot read properties of null (reading 'status')");
                ("details", JUndefined)]).
Proof.
  assert (H1 : request_field Scenario.next_message "message" = JStr "hi")
    by reflexivity.
  assert (H2 : "hi" <> "") by discriminate.
  assert (H3 : reaches_poller (rt := Edge.answers_null)
                 (request_field Scenario.next_message "threadId") (JStr "hi") []
                 (JStr "thread_1") (JStr "run_1")
                 (Edge.before_polling Edge.answers_null)).
  { exists [],
           [EvFetch (addUserMessage_request (rt := Edge.answers_null)
                       (JStr "thread_1") (JStr "hi"))],
           Scenario.appended, Scenario.run_queued.
    repeat split; vm_compute; reflexivity. }
  assert (H4 : (1 <= 1 <= 40)%nat) by lia.
  assert (H5 : pending_for (rt := Edge.answers_null) (JStr "thread_1") (JStr "run_1")
                 (Edge.before_polling Edge.answers_null) (1 - 1))
    by (intros j Hj; simpl in Hj; lia).
  assert (H6 : status_fetch_returns (rt := Edge.answers_null)
                 (JStr "thread_1") (JStr "run_1")
                 (Edge.before_polling Edge.answers_null) (1 - 1) JNull)
    by (vm_compute; reflexivity).
  assert (H7 : nullish JNull = true) by reflexivity.
  repeat (split; [assumption |]).
  destruct (null_run_ends_polling (rt := Edge.answers_null)
              Scenario.next_message "hi" [] (JStr "thread_1") (JStr "run_1")
              (Edge.before_polling Edge.answers_null) 1 JNull
              H1 H2 H3 H4 H5 H6 H7)
    as [_ E].
  rewrite E. reflexivity.
Defined.

Lemma extraction_returns_null_or_text_witness :
  extractLatestAssistantText Scenario.messages = inr (JStr "hello")
  /\ (JStr "hello" = JNull \/ truthy (JStr "hello") = true).
Proof.
  assert (H : extractLatestAssistantText Scenario.messages = inr (JStr "hello"))
    by reflexivity.
  split; [exact H |].
  destruct (extraction_returns_null_or_text _ _ H) as [E | [E _]];
    [left; exact E | right; exact E].
Defined.

Lemma forwarded_status_is_last_response_witness :
  res_status (snd (chat_send (rt := Scenario.refuses) Scenario.next_message []))
  <> 400%Z
  /\ res_status (snd (chat_send (rt := Scenario.refuses) Scenario.next_message []))
     <> 200%Z
  /\ res_status (snd (chat_send (rt := Scenario.refuses) Scenario.next_message []))
     <> 500%Z
  /\ exists t0 rq text,
       fst (chat_send (rt := Scenario.refuses) Scenario.next_message [])
       = t0 ++ [EvFetch rq]
       /\ fetch (Runtime := Scenario.refuses) t0 rq = Resolved 401 text.
Proof.
  assert (E : res_status (snd (chat_send (rt := Scenario.refuses)
                                 Scenario.next_message [])) = 401%Z)
    by (vm_compute; reflexivity).
  assert (H1 : res_status (snd (chat_send (rt := Scenario.refuses)
                                  Scenario.next_message [])) <> 400%Z)
    by (rewrite E; discriminate).
  assert (H2 : res_status (snd (chat_send (rt := Scenario.refuses)
                                  Scenario.next_message [])) <> 200%Z)
    by (rewrite E; discriminate).
  assert (H3 : res_status (snd (chat_send (rt := Scenario.refuses)
                                  Scenario.next_message [])) <> 500%Z)
    by (rewrite E; discriminate).
  repeat (split; [assumption |]).
  destruct (forwarded_status_is_last_response (rt := Scenario.refuses)
              Scenario.next_message [] H1 H2 H3)
    as (t0 & rq & text & Et & Ef & _).
  exists t0, rq, text. split; [exact Et |]. rewrite <- E. exact Ef.
Defined.

Lemma null_entry_in_listing_answers_500_witness :
  request_field Scenario.next_message "message" = JStr "hi"
  /\ "hi" <> ""
  /\ reaches_poller (rt := Edge.lists_null)
       (request_field Scenario.next_message "threadId") (JStr "hi") []
       (JStr "thread_1") (JStr "run_1") (Edge.before_polling Edge.lists_null)
  /\ waitForRunComplete (rt := Edge.lists_null) (JStr "thread_1") (JStr "run_1")
       (Edge.before_polling Edge.lists_null)
     = (Edge.before_polling Edge.lists_null
        ++ [EvFetch (getRun_request (rt := Edge.lists_null)
                       (JStr "thread_1") (JStr "run_1"))],
        inr Scenario.run_completed)
  /\ snd (listMessages (rt := Edge.lists_null) (JStr "thread_1") 20
            (Edge.before_polling Edge.lists_null
             ++ [EvFetch (getRun_request (rt := Edge.lists_null)
                            (JStr "thread_1") (JStr "run_1"))]))
     = inr Edge.messages_with_null
  /\ entries Edge.messages_with_null
     = [] ++ JNull :: [Scenario.assistant_hello; Scenario.user_hi]
  /\ Forall other_entry []
  /\ nullish JNull = true
  /\ res_status (snd (chat_send (rt := Edge.lists_null) Scenario.next_message []))
     = 500%Z.
Proof.
  assert (H1 : request_field Scenario.next_message "message" = JStr "hi")
    by reflexivity.
  assert (H2 : "hi" <> "") by discriminate.
  assert (H3 : reaches_poller (rt := Edge.lists_null)
                 (request_field Scenario.next_message "threadId") (JStr "hi") []
                 (JStr "thread_1") (JStr "run_1")
                 (Edge.before_polling Edge.lists_null)).
  { exists [],
           [EvFetch (addUserMessage_request (rt := Edge.lists_null)
                       (JStr "thread_1") (JStr "hi"))],
           Scenario.appended, Scenario.run_queued.
    repeat split; vm_compute; reflexivity. }
  assert (H4 : waitForRunComplete (rt := Edge.lists_null)
                 (JStr "thread_1") (JStr "run_1")
                 (Edge.before_polling Edge.lists_null)
               = (Edge.before_polling Edge.lists_null
                  ++ [EvFetch (getRun_request (rt := Edge.lists_null)
                                 (JStr "thread_1") (JStr "run_1"))],
                  inr Scenario.run_completed))
    by (vm_compute; reflexivity).
  assert (H5 : snd (listMessages (rt := Edge.lists_null) (JStr "thread_1") 20
                      (Edge.before_polling Edge.lists_null
                       ++ [EvFetch (getRun_request (rt := Edge.lists_null)
                                      (JStr "thread_1") (JStr "run_1"))]))
               = inr Edge.messages_with_null)
    by (vm_compute; reflexivity).
  assert (H6 : entries Edge.messages_with_null
               = [] ++ JNull :: [Scenario.assistant_hello; Scenario.user_hi])
    by reflexivity.
  assert (H7 : Forall other_entry []) by constructor.
  assert (H8 : nullish JNull = true) by reflexivity.
  repeat (split; [assumption |]).
  destruct (null_entry_in_listing_answers_500 (rt := Edge.lists_null)
              Scenario.next_message "hi" [] (JStr "thread_1") (JStr "run_1")
              _ _ _ _ _ _ _ H1 H2 H3 H4 H5 H6 H7 H8)
    as [_ E].
  rewrite E. reflexivity.
Defined.

Lemma unreachable_upstream_answers_500_witness :
  (forall rq, fetch (Runtime := Edge.down) [] rq = Rejected "fetch failed")
  /\ chat_start (rt := Edge.down) []
     = ([EvFetch (createThread_request (rt := Edge.down))],
        json_response 500
          (JObj [("error", JStr "fetch failed"); ("details", JUndefined)])).
Proof.
  assert (H : forall rq, fetch (Runtime := Edge.down) [] rq = Rejected "fetch failed")
    by (intros rq; reflexivity).
  split; [exact H |].
  exact (proj1 (unreachable_upstream_answers_500 (rt := Edge.down) [] "fetch failed" H)).
Defined.

Lemma chat_start_makes_one_request_witness :
  snd (createThread (rt := Scenario.completes) []) = inr Scenario.thread
  /\ nullish Scenario.thread = false
  /\ chat_start (rt := Scenario.completes) []
     = ([EvFetch (createThread_request (rt := Scenario.completes))],
        json_response 200 (JObj [("threadId", JStr "thread_1")])).
Proof.
  assert (H1 : snd (createThread (rt := Scenario.completes) []) = inr Scenario.thread)
    by (vm_compute; reflexivity).
  assert (H2 : nullish Scenario.thread = false) by reflexivity.
  repeat (split; [assumption |]).
  destruct (chat_start_makes_one_request (rt := Scenario.completes) [])
    as (Ht & Hok & _).
  rewrite (surjective_pairing (chat_start (rt := Scenario.completes) [])).
  rewrite Ht, (Hok _ H1 H2). reflexivity.
Defined.

(** ** Values without a string form *)

(** The created thread comes with the id [{ "toString": false }]: the path
    of the append cannot be built, one request is made and the answer is
    500. *)
Example created_thread_id_without_string_form :
  chat_send (rt := Edge.odd_thread) Scenario.first_message []
  = ([EvFetch (createThread_request (rt := Edge.odd_thread))],
     json_response 500
       (JObj [("error", JStr "Cannot convert object to primitive value");
              ("details", JUndefined)])).
Proof. vm_compute. reflexivity. Qed.

(** Upstream answers 500 with such an [error.message]: the failure of the
    client is the TypeError, with neither status nor payload. *)
Example error_message_without_string_form :
  createThread (rt := Edge.garbles) []
  = ([EvFetch (createThread_request (rt := Edge.garbles))],
     inl {| e_message := "Cannot convert object to primitive value";
            e_status := None;
            e_data := JUndefined |}).
Proof. vm_compute. reflexivity. Qed.

(** The run is found failed with such a [last_error.message]. *)
Example run_error_without_string_form :
  waitForRunComplete (rt := Edge.fails_oddly) (JStr "thread_1") (JStr "run_1") []
  = ([EvFetch (getRun_request (rt := Edge.fails_oddly)
                 (JStr "thread_1") (JStr "run_1"))],
     inl {| e_message := "Cannot convert object to primitive value";
            e_status := None;
            e_data := JUndefined |}).
Proof. vm_compute. reflexivity. Qed.

(** The created run comes with such an id: the poller makes no status
    fetch, and the handler answers 500 after the run creation. *)
Example run_id_without_string_form :
  chat_send (rt := Edge.odd_run) Scenario.next_message []
  = (Edge.before_polling Edge.odd_run,
     json_response 500
       (JObj [("error", JStr "Cannot convert object to primitive value");
              ("details", JUndefined)])).
Proof. vm_compute. reflexivity. Qed.

(** There the poller is started at the trace of the run creation and
    fails at its first attempt without a status fetch: the trace is left as
    it was. *)
Example status_fetch_without_run_id :
  waitForRunComplete (rt := Edge.odd_run) (JStr "thread_1") Edge.no_string_form
    (Edge.before_polling Edge.odd_run)
  = (Edge.before_polling Edge.odd_run,
     inl {| e_message := "Cannot convert object to primitive value";
            e_status := None;
            e_data := JUndefined |}).
Proof. vm_compute. reflexivity. Qed.

(** A [threadId] is put into the URL as it is. *)
Example thread_id_is_inserted_as_it_is :
  rq_url (addUserMessage_request (rt := Scenario.completes)
            (JStr "../../x") (JStr "hi"))
  = "https://api.openai.com/v1/threads/../../x/messages".
Proof. reflexivity. Qed.
